(** * FoilCreator: the NACA 4-digit airfoil generator and the section
      placement schedule of [FoilCreator.py], embedded in Rocq.

    Numbers.  The Python code computes with binary64 floats.  The embedding
    reads every float expression as the real-number expression it denotes
    (the specification's data model also speaks of "pairs/triples of real
    numbers"), keeping the shape of each source expression: the order of the
    operations, the branch conditions and the places where Python raises
    (division by zero, [math.sqrt] of a negative number, [int] of a string
    that is no integer literal).  Rounding is therefore not modelled.

    Strings.  A Python [str] is read as a Rocq [string] whose characters are
    the code points 0..255.

    Host calls ([adsk.*]) are outside the model; [end_point] is modelled up to
    the [Point3D] it builds. *)

From Stdlib Require Import Reals Lra Lia ZArith List Bool Ascii String.
Import ListNotations.

Open Scope R_scope.

(** ** Python exceptions and the error monad *)

Inductive exn : Type :=
| ValueError
| ZeroDivisionError.

Inductive result (A : Type) : Type :=
| Ok (a : A)
| Raise (e : exn).

Arguments Ok {A} a.
Arguments Raise {A} e.

Definition bind {A B : Type} (c : result A) (k : A -> result B) : result B :=
  match c with
  | Ok a => k a
  | Raise e => Raise e
  end.

Notation "x <- c ;; k" := (bind c (fun x => k))
  (at level 61, c at next level, right associativity).
Notation "' p <- c ;; k" := (bind c (fun x => let p := x in k))
  (at level 61, p pattern, c at next level, right associativity).

(** ** Comparisons and the partial operations of Python floats *)

Definition Rltb (x y : R) : bool := if Rlt_dec x y then true else false.
Definition Rneqb (x y : R) : bool := if Req_dec_T x y then false else true.

(** [a / b] on floats raises [ZeroDivisionError] when [b] is zero. *)
Definition py_div (a b : R) : result R :=
  if Req_dec_T b 0 then Raise ZeroDivisionError else Ok (a / b).

(** [math.sqrt x] raises [ValueError] (math domain error) when [x < 0]. *)
Definition math_sqrt (x : R) : result R :=
  if Rlt_dec x 0 then Raise ValueError else Ok (sqrt x).

(** ** Python's [int] on a string (base 10)

    [int(s)] strips white space at both ends, accepts one optional sign, and
    then wants decimal digits, where single underscores may stand between two
    digits.  Among the code points 0..255 the white space it strips is
    9..13, 32, 133 and 160, and the only decimal digits are ['0']..['9']. *)

Definition isdigit (c : ascii) : bool :=
  let n := nat_of_ascii c in ((48 <=? n) && (n <=? 57))%nat.

Definition digit_value (c : ascii) : Z := Z.of_nat (nat_of_ascii c) - 48.

Definition int_isspace (c : ascii) : bool :=
  let n := nat_of_ascii c in
  (((9 <=? n) && (n <=? 13)) || (n =? 32) || (n =? 133) || (n =? 160))%nat.

Fixpoint lstrip (s : list ascii) : list ascii :=
  match s with
  | c :: s' => if int_isspace c then lstrip s' else s
  | [] => []
  end.

Definition strip (s : list ascii) : list ascii :=
  rev (lstrip (rev (lstrip s))).

(** [parse_digits acc after_digit s]: the digits of [s] continue the number
    [acc]; [after_digit] tells whether the previous character was a digit
    (an underscore, and the end of the string, are accepted only then). *)
Fixpoint parse_digits (acc : Z) (after_digit : bool) (s : list ascii) : option Z :=
  match s with
  | [] => if after_digit then Some acc else None
  | c :: s' =>
      if isdigit c then parse_digits (10 * acc + digit_value c)%Z true s'
      else if (Ascii.eqb c "_") && after_digit then parse_digits acc false s'
      else None
  end.

Definition parse_signed (s : list ascii) : option Z :=
  match s with
  | c :: s' =>
      if Ascii.eqb c "+" then parse_digits 0 false s'
      else if Ascii.eqb c "-" then option_map Z.opp (parse_digits 0 false s')
      else parse_digits 0 false s
  | [] => None
  end.

Definition py_int (s : string) : result Z :=
  match parse_signed (strip (list_ascii_of_string s)) with
  | Some z => Ok z
  | None => Raise ValueError
  end.

(** ** Slices of a string: [s[i]] for an index in range, and [s[i:]] *)

Definition str_index (s : string) (i : nat) : string := substring i 1 s.
Definition str_from (s : string) (i : nat) : string :=
  substring i (String.length s - i) s.

(** ** [generate_naca_airfoil_coordinates] *)

Definition point : Type := (R * R)%type.

(** Lines 33-39: the length check and the three parameters [m], [p], [t]. *)
Definition decode (naca : string) : result (R * R * R) :=
  if negb (String.length naca =? 4)%nat then Raise ValueError
  else
    d0 <- py_int (str_index naca 0) ;;
    let m := IZR d0 / 100.0 in
    d1 <- py_int (str_index naca 1) ;;
    let p := IZR d1 / 10.0 in
    d23 <- py_int (str_from naca 2) ;;
    let t := IZR d23 / 100.0 in
    Ok (m, p, t).

Definition x_lift : R := 0.5.

(** Lines 44-51: the ordinate of the reference point. *)
Definition y_lift (m p : R) : result R :=
  if Rltb x_lift p && Rneqb p 0 then
    q <- py_div m (p * p) ;;
    Ok (q * (2 * p * x_lift - x_lift * x_lift))
  else if Rneqb p 1 then
    q <- py_div m ((1 - p) * (1 - p)) ;;
    Ok (q * ((1 - 2 * p) + 2 * p * x_lift - x_lift * x_lift))
  else Ok 0.0.

(** [range(n)] for a Python integer [n]: empty when [n <= 0]. *)
Definition range (n : Z) : list Z := map Z.of_nat (seq 0 (Z.to_nat n)).

(** Lines 55-56: the sample of index [i]. *)
Definition x_coord (num_points i : Z) : result R :=
  beta <- py_div (PI * IZR i) (IZR (num_points - 1)) ;;
  Ok (0.5 * (1 - cos beta)).

(** Lines 53-57: the loop that fills [x_coords], by appending. *)
Fixpoint x_coords_loop (num_points : Z) (indices : list Z) (x_coords : list R)
  : result (list R) :=
  match indices with
  | [] => Ok x_coords
  | i :: indices' =>
      x <- x_coord num_points i ;;
      x_coords_loop num_points indices' (x_coords ++ [x])
  end.

Definition x_coords (num_points : Z) : result (list R) :=
  x_coords_loop num_points (range num_points) [].

(** Lines 64-72: the camber line [y_c] and its slope [dyc_dx] at [x]. *)
Definition camber (m p x : R) : result (R * R) :=
  if Rltb x p && Rneqb p 0 then
    q <- py_div m (p * p) ;;
    let y_c := q * (2 * p * x - x * x) in
    q' <- py_div (2 * m) (p * p) ;;
    let dyc_dx := q' * (p - x) in
    Ok (y_c, dyc_dx)
  else if Rneqb p 1 then
    q <- py_div m ((1 - p) * (1 - p)) ;;
    let y_c := q * ((1 - 2 * p) + 2 * p * x - x * x) in
    q' <- py_div (2 * m) ((1 - p) * (1 - p)) ;;
    let dyc_dx := q' * (p - x) in
    Ok (y_c, dyc_dx)
  else Ok (0.0, 0.0).

(** Lines 76-86: the half thickness. *)
Definition thickness (t x : R) : result R :=
  s <- math_sqrt x ;;
  Ok (5 * t *
      (0.2969 * s - 0.1260 * x - 0.3516 * x * x + 0.2843 * x ^ 3 - 0.1015 * x ^ 4)).

(** Lines 63-95: one turn of the second loop; the upper and the lower point
    that are appended, both moved by the reference point. *)
Definition surface_points (m p t yl x : R) : result (point * point) :=
  '(y_c, dyc_dx) <- camber m p x ;;
  let theta := atan dyc_dx in
  y_t <- thickness t x ;;
  let x_upper := x - y_t * sin theta in
  let y_upper := y_c + y_t * cos theta in
  let x_lower := x + y_t * sin theta in
  let y_lower := y_c - y_t * cos theta in
  Ok ((x_upper - x_lift, y_upper - yl), (x_lower - x_lift, y_lower - yl)).

(** Lines 59-95: the loop over [x_coords], with its two growing lists. *)
Fixpoint surface_loop (m p t yl : R) (xs : list R)
  (upper_points lower_points : list point) : result (list point * list point) :=
  match xs with
  | [] => Ok (upper_points, lower_points)
  | x :: xs' =>
      '(up, lo) <- surface_points m p t yl x ;;
      surface_loop m p t yl xs' (upper_points ++ [up]) (lower_points ++ [lo])
  end.

(** The body after the decoding (lines 41-100). *)
Definition airfoil_coords (m p t : R) (num_points : Z) : result (list point) :=
  yl <- y_lift m p ;;
  xs <- x_coords num_points ;;
  '(upper_points, lower_points) <- surface_loop m p t yl xs [] [] ;;
  Ok (upper_points ++ rev lower_points).

Definition generate_naca_airfoil_coordinates (naca : string) (num_points : Z)
  : result (list point) :=
  '(m, p, t) <- decode naca ;;
  airfoil_coords m p t num_points.

(** ** The placement schedule *)

Definition get_rotate_angle (fraction : R) : R :=
  let start := 1 / 6 in
  PI * start + fraction * PI * (1 / 2 - start).

Definition get_scale (fraction : R) : result R :=
  let all_scale := 1.2 in
  let max_scale_fraction := 0.6 in
  if Rltb fraction max_scale_fraction then
    Ok (all_scale * (- (fraction - max_scale_fraction) ^ 2 + 1))
  else
    q <- py_div 1 (1 - max_scale_fraction) ;;
    s <- math_sqrt (1 - (q * (fraction - max_scale_fraction)) ^ 2) ;;
    Ok (all_scale * s).

Definition get_skew_angle (fraction : R) : R := PI * 1 / 2 * fraction.

Record Point3D : Type := Point3D_create { px : R; py : R; pz : R }.

(** Lines 177-182: the point [end_pt]; the host call that stores it in the
    sketch is outside the model. *)
Definition end_point (skew_r : R) : Point3D :=
  let end_skew_angle := get_skew_angle 1 in
  Point3D_create 0
    (skew_r - cos end_skew_angle * skew_r)
    (- sin end_skew_angle * skew_r).

(** ** [create_sketch] and [run]: the numbers handed to the host

    The host objects (sketches, splines, loft features) are outside the
    model.  What is modelled is what the code computes before it calls the
    host: the points that [create_sketch] creates for the fitted spline, and
    for every station of [run] the arguments of its [create_sketch] call. *)

(** Lines 147-150: one [Point3D] per point of the contour, in order. *)
Definition create_sketch_points (airfoil_coords : list point) (scale : R)
  : list Point3D :=
  map (fun xy => Point3D_create (fst xy * scale) (snd xy * scale) 0)
      airfoil_coords.

(** One [create_sketch] call of [run]: the station index, the points of the
    spline, and the angles and the radius given to [rotate_sketch] and
    [skew_sketch]. *)
Record section_call : Type := Section_call {
  station : Z;
  spline_points : list Point3D;
  rotate_angle : R;
  skew_angle : R;
  skew_radius : R
}.

Definition run_sketch_num : Z := 50.
Definition run_skew_r : R := 2.

(** Lines 202-217: the loop over the stations; the first six are skipped. *)
Fixpoint run_loop (airfoil_coords : list point) (indices : list Z)
  (loft_profiles : list section_call) : result (list section_call) :=
  match indices with
  | [] => Ok loft_profiles
  | i :: indices' =>
      if (i <? 6)%Z then run_loop airfoil_coords indices' loft_profiles
      else
        fraction <- py_div (IZR i) (IZR run_sketch_num) ;;
        scale <- get_scale fraction ;;
        run_loop airfoil_coords indices'
          (loft_profiles ++
           [Section_call i (create_sketch_points airfoil_coords scale)
              (get_rotate_angle fraction) (get_skew_angle fraction) run_skew_r])
  end.

(** Lines 195-221, inside the [try]: the contour, the sections and the tip
    point.  An exception raised here is what the [except] clause reports. *)
Definition run : result (list section_call * Point3D) :=
  airfoil_coords <- generate_naca_airfoil_coordinates "2412" 20 ;;
  loft_profiles <- run_loop airfoil_coords (range run_sketch_num) [] ;;
  Ok (loft_profiles, end_point run_skew_r).

(** ** Closed forms

    The total, real-valued readings of the formulas, following the words of
    the specification; the lemmas below show that the code computes them. *)

(** Cosine spacing: the sample of index [i] among [n]. *)
Definition sample (n i : Z) : R := 0.5 * (1 - cos (PI * IZR i / IZR (n - 1))).

Definition samples (n : Z) : list R := map (sample n) (range n).

(** The two-piece camber line and its slope. *)
Definition camber_line (m p x : R) : R * R :=
  if Rltb x p && Rneqb p 0 then
    (m / (p * p) * (2 * p * x - x * x), 2 * m / (p * p) * (p - x))
  else if Rneqb p 1 then
    (m / ((1 - p) * (1 - p)) * ((1 - 2 * p) + 2 * p * x - x * x),
     2 * m / ((1 - p) * (1 - p)) * (p - x))
  else (0, 0).

Definition half_thickness (t x : R) : R :=
  5 * t *
  (0.2969 * sqrt x - 0.1260 * x - 0.3516 * x * x + 0.2843 * x ^ 3 - 0.1015 * x ^ 4).

Definition upper_surface (m p t x : R) : point :=
  let theta := atan (snd (camber_line m p x)) in
  (x - half_thickness t x * sin theta,
   fst (camber_line m p x) + half_thickness t x * cos theta).

Definition lower_surface (m p t x : R) : point :=
  let theta := atan (snd (camber_line m p x)) in
  (x + half_thickness t x * sin theta,
   fst (camber_line m p x) - half_thickness t x * cos theta).

(** The reference point: on the camber line, at half chord. *)
Definition reference (m p : R) : point := (0.5, fst (camber_line m p 0.5)).

(** [recentre c q] is [q] moved so that [c] becomes the origin. *)
Definition recentre (c q : point) : point := (fst q - fst c, snd q - snd c).

(** The points of the two surfaces at abscissa [x], moved to the reference. *)
Definition upper_point (m p t x : R) : point :=
  recentre (reference m p) (upper_surface m p t x).

Definition lower_point (m p t x : R) : point :=
  recentre (reference m p) (lower_surface m p t x).

(** The value of [get_scale] where it returns one. *)
Definition scale_value (fraction : R) : R :=
  if Rltb fraction 0.6 then 1.2 * (1 - (fraction - 0.6) ^ 2)
  else 1.2 * sqrt (1 - ((fraction - 0.6) / 0.4) ^ 2).

(** The section that [run] builds for the station [i], in closed form. *)
Definition run_section (airfoil_coords : list point) (i : Z) : section_call :=
  let fraction := IZR i / IZR run_sketch_num in
  Section_call i (create_sketch_points airfoil_coords (scale_value fraction))
    (get_rotate_angle fraction) (get_skew_angle fraction) run_skew_r.

(** A code of exactly four decimal digits. *)
Definition valid_code (naca : string) : bool :=
  (String.length naca =? 4)%nat && forallb isdigit (list_ascii_of_string naca).

(** The digit at position [i] of a code, as a number. *)
Definition digit (naca : string) (i : nat) : Z :=
  digit_value (nth i (list_ascii_of_string naca) "0"%char).

(** The codes that the decoding lets through: the first two characters are
    digits, and the last two are an integer literal for [int]. *)
Definition accepted_code (naca : string) : bool :=
  match list_ascii_of_string naca with
  | [c0; c1; c2; c3] =>
      isdigit c0 && isdigit c1 &&
      ((isdigit c2 && isdigit c3)
       || ((int_isspace c2 || Ascii.eqb c2 "+" || Ascii.eqb c2 "-") && isdigit c3)
       || (isdigit c2 && int_isspace c3))
  | _ => false
  end.

(** The contour, for at least two samples per surface. *)
Definition contour (m p t : R) (n : Z) : list point :=
  map (upper_point m p t) (samples n) ++ rev (map (lower_point m p t) (samples n)).

(** What [int] returns on a string of one character, and of two. *)
Definition int_of_1 (c : ascii) : result Z :=
  if isdigit c then Ok (digit_value c) else Raise ValueError.

Definition int_of_2 (c d : ascii) : result Z :=
  if isdigit c && isdigit d then Ok (10 * digit_value c + digit_value d)%Z
  else if (int_isspace c || Ascii.eqb c "+") && isdigit d then Ok (digit_value d)
  else if Ascii.eqb c "-" && isdigit d then Ok (- digit_value d)%Z
  else if isdigit c && int_isspace d then Ok (digit_value c)
  else Raise ValueError.

Definition result_Z_eqb (a b : result Z) : bool :=
  match a, b with
  | Ok x, Ok y => Z.eqb x y
  | Raise ValueError, Raise ValueError => true
  | Raise ZeroDivisionError, Raise ZeroDivisionError => true
  | _, _ => false
  end.

(** The 256 characters. *)
Definition all_ascii : list ascii := map ascii_of_nat (seq 0 256).

(** The second character of a code. *)
Definition second_digit (naca : string) : string := str_index naca 1.

(** ** Tactics *)

(** Case analysis on the character tests of a goal. *)
Ltac case_chars :=
  repeat match goal with
         | |- context [isdigit ?c] => destruct (isdigit c)
         | |- context [int_isspace ?c] => destruct (int_isspace c)
         | |- context [Ascii.eqb ?c ?d] => destruct (Ascii.eqb c d)
         end.

(** Equalities between results, lists and pairs of explicit real numbers. *)
Ltac points_eq :=
  repeat first [ apply (f_equal (@Ok _))
               | apply (f_equal2 (@cons _))
               | apply (f_equal2 (@pair _ _)) ];
  try reflexivity; try lra.

(** ** Basic facts on the partial operations *)

Lemma Rltb_true (x y : R) : x < y -> Rltb x y = true.
Proof. intros H; unfold Rltb; destruct (Rlt_dec x y); [reflexivity | contradiction]. Qed.

Lemma Rltb_false (x y : R) : y <= x -> Rltb x y = false.
Proof. intros H; unfold Rltb; destruct (Rlt_dec x y); [lra | reflexivity]. Qed.

Lemma Rneqb_true (x y : R) : x <> y -> Rneqb x y = true.
Proof. intros H; unfold Rneqb; destruct (Req_dec_T x y); [contradiction | reflexivity]. Qed.

Lemma Rneqb_false (x y : R) : x = y -> Rneqb x y = false.
Proof. intros H; unfold Rneqb; destruct (Req_dec_T x y); [reflexivity | contradiction]. Qed.

Lemma Rneqb_true_inv (x y : R) : Rneqb x y = true -> x <> y.
Proof. unfold Rneqb; destruct (Req_dec_T x y); [discriminate | auto]. Qed.

Lemma py_div_ok (a b : R) : b <> 0 -> py_div a b = Ok (a / b).
Proof. intros H; unfold py_div; destruct (Req_dec_T b 0); [contradiction | reflexivity]. Qed.

Lemma py_div_zero (a : R) : py_div a 0 = Raise ZeroDivisionError.
Proof. unfold py_div; destruct (Req_dec_T 0 0); [reflexivity | contradiction]. Qed.

Lemma math_sqrt_ok (x : R) : 0 <= x -> math_sqrt x = Ok (sqrt x).
Proof. intros H; unfold math_sqrt; destruct (Rlt_dec x 0); [lra | reflexivity]. Qed.

Lemma math_sqrt_neg (x : R) : x < 0 -> math_sqrt x = Raise ValueError.
Proof. intros H; unfold math_sqrt; destruct (Rlt_dec x 0); [reflexivity | contradiction]. Qed.

(** ** The code computes the closed forms *)

Lemma camber_ok (m p x : R) : camber m p x = Ok (camber_line m p x).
Proof.
  unfold camber, camber_line.
  destruct (Rltb x p && Rneqb p 0) eqn:E1.
  - apply andb_true_iff in E1 as [_ Hp]. apply Rneqb_true_inv in Hp.
    assert (Hpp : p * p <> 0) by nra.
    rewrite !(py_div_ok _ _ Hpp). reflexivity.
  - destruct (Rneqb p 1) eqn:E2.
    + apply Rneqb_true_inv in E2.
      assert (Hpp : (1 - p) * (1 - p) <> 0) by nra.
      rewrite !(py_div_ok _ _ Hpp). reflexivity.
    + f_equal. f_equal; lra.
Qed.

Lemma y_lift_ok (m p : R) : y_lift m p = Ok (snd (reference m p)).
Proof.
  unfold y_lift, reference, camber_line, x_lift. cbn [snd].
  destruct (Rltb 0.5 p && Rneqb p 0) eqn:E1.
  - apply andb_true_iff in E1 as [_ Hp]. apply Rneqb_true_inv in Hp.
    assert (Hpp : p * p <> 0) by nra.
    rewrite (py_div_ok _ _ Hpp). reflexivity.
  - destruct (Rneqb p 1) eqn:E2.
    + apply Rneqb_true_inv in E2.
      assert (Hpp : (1 - p) * (1 - p) <> 0) by nra.
      rewrite (py_div_ok _ _ Hpp). reflexivity.
    + cbn [fst]. f_equal. lra.
Qed.

Lemma thickness_ok (t x : R) : 0 <= x -> thickness t x = Ok (half_thickness t x).
Proof. intros H. unfold thickness. rewrite (math_sqrt_ok _ H). reflexivity. Qed.

Lemma surface_points_ok (m p t x : R) :
  0 <= x ->
  surface_points m p t (snd (reference m p)) x =
  Ok (upper_point m p t x, lower_point m p t x).
Proof.
  intros H. unfold surface_points, upper_point, lower_point.
  rewrite camber_ok. cbn [bind].
  destruct (camber_line m p x) as [y_c dyc_dx] eqn:E.
  rewrite (thickness_ok _ _ H). cbn [bind].
  unfold recentre, upper_surface, lower_surface, reference, x_lift.
  rewrite E. reflexivity.
Qed.

Lemma sample_nonneg (n i : Z) : 0 <= sample n i.
Proof.
  unfold sample.
  pose proof (COS_bound (PI * IZR i / IZR (n - 1))) as [_ Hc]. lra.
Qed.

Lemma x_coord_ok (n i : Z) : (2 <= n)%Z -> x_coord n i = Ok (sample n i).
Proof.
  intros Hn. unfold x_coord.
  rewrite py_div_ok; [reflexivity |].
  apply not_0_IZR. lia.
Qed.

Lemma x_coords_loop_ok (n : Z) :
  (2 <= n)%Z ->
  forall (indices : list Z) (acc : list R),
    x_coords_loop n indices acc = Ok (acc ++ map (sample n) indices).
Proof.
  intros Hn indices.
  induction indices as [| i indices IH]; intros acc; cbn [x_coords_loop map].
  - now rewrite app_nil_r.
  - rewrite (x_coord_ok _ _ Hn). cbn [bind].
    rewrite IH, <- app_assoc. reflexivity.
Qed.

Lemma x_coords_ok (n : Z) : (2 <= n)%Z -> x_coords n = Ok (samples n).
Proof. intros Hn. unfold x_coords. now rewrite (x_coords_loop_ok _ Hn). Qed.

Lemma samples_nonneg (n : Z) : Forall (fun x => 0 <= x) (samples n).
Proof.
  unfold samples. apply Forall_forall. intros x Hx.
  apply in_map_iff in Hx as (i & <- & _). apply sample_nonneg.
Qed.

Lemma surface_loop_ok (m p t : R) (xs : list R) :
  Forall (fun x => 0 <= x) xs ->
  forall upper_points lower_points : list point,
    surface_loop m p t (snd (reference m p)) xs upper_points lower_points =
    Ok (upper_points ++ map (upper_point m p t) xs,
        lower_points ++ map (lower_point m p t) xs).
Proof.
  induction 1 as [| x xs Hx _ IH]; intros us ls; cbn [surface_loop map].
  - now rewrite !app_nil_r.
  - rewrite (surface_points_ok _ _ _ _ Hx). cbn [bind].
    rewrite IH, <- !app_assoc. reflexivity.
Qed.

Lemma airfoil_coords_ok (m p t : R) (n : Z) :
  (2 <= n)%Z -> airfoil_coords m p t n = Ok (contour m p t n).
Proof.
  intros Hn. unfold airfoil_coords.
  rewrite y_lift_ok. cbn [bind].
  rewrite (x_coords_ok _ Hn). cbn [bind].
  rewrite (surface_loop_ok _ _ _ _ (samples_nonneg n)). reflexivity.
Qed.

Lemma range_length (n : Z) : List.length (range n) = Z.to_nat n.
Proof. unfold range. now rewrite length_map, length_seq. Qed.

Lemma samples_length (n : Z) : List.length (samples n) = Z.to_nat n.
Proof. unfold samples. now rewrite length_map, range_length. Qed.

Lemma contour_length (m p t : R) (n : Z) :
  List.length (contour m p t n) = (2 * Z.to_nat n)%nat.
Proof.
  unfold contour.
  rewrite length_app, length_rev, !length_map, samples_length. lia.
Qed.

Lemma samples_nth (n : Z) (i : nat) :
  (i < Z.to_nat n)%nat -> nth i (samples n) 0 = sample n (Z.of_nat i).
Proof.
  intros Hi. unfold samples, range.
  rewrite map_map.
  rewrite (nth_indep _ 0 (sample n (Z.of_nat 0))) by (rewrite length_map, length_seq; exact Hi).
  rewrite (map_nth (fun k => sample n (Z.of_nat k)) (seq 0 (Z.to_nat n)) 0%nat i).
  rewrite seq_nth by exact Hi. reflexivity.
Qed.

Lemma sample_first (n : Z) : sample n 0 = 0.
Proof.
  unfold sample. replace (PI * 0 / IZR (n - 1)) with 0 by (unfold Rdiv; ring).
  rewrite cos_0. lra.
Qed.

Lemma sample_last (n : Z) : (2 <= n)%Z -> sample n (n - 1) = 1.
Proof.
  intros Hn. unfold sample.
  replace (PI * IZR (n - 1) / IZR (n - 1)) with PI.
  - rewrite cos_PI. lra.
  - field. apply not_0_IZR. lia.
Qed.

(** ** [int] on strings of one and of two characters *)

Lemma result_Z_eqb_eq (a b : result Z) : result_Z_eqb a b = true -> a = b.
Proof.
  destruct a as [x | []], b as [y | []]; cbn; try discriminate; try reflexivity.
  intros H. apply Z.eqb_eq in H. now subst.
Qed.

Lemma all_ascii_complete (c : ascii) : In c all_ascii.
Proof.
  unfold all_ascii. apply in_map_iff. exists (nat_of_ascii c). split.
  - apply ascii_nat_embedding.
  - apply in_seq. pose proof (nat_ascii_bounded c). lia.
Qed.

Lemma py_int_1 (c : ascii) : py_int (String c EmptyString) = int_of_1 c.
Proof.
  assert (H : forallb (fun c => result_Z_eqb (py_int (String c EmptyString)) (int_of_1 c))
                all_ascii = true) by (vm_compute; reflexivity).
  rewrite forallb_forall in H.
  apply result_Z_eqb_eq, H, all_ascii_complete.
Qed.

Lemma py_int_2 (c d : ascii) :
  py_int (String c (String d EmptyString)) = int_of_2 c d.
Proof.
  assert (H : forallb (fun c => forallb (fun d =>
                result_Z_eqb (py_int (String c (String d EmptyString))) (int_of_2 c d))
                all_ascii) all_ascii = true) by (vm_compute; reflexivity).
  rewrite forallb_forall in H.
  specialize (H c (all_ascii_complete c)).
  rewrite forallb_forall in H.
  apply result_Z_eqb_eq, H, all_ascii_complete.
Qed.

(** ** Decoding *)

Lemma string_length_4 (s : string) :
  String.length s = 4%nat ->
  exists c0 c1 c2 c3,
    s = String c0 (String c1 (String c2 (String c3 EmptyString))).
Proof.
  destruct s as [| c0 [| c1 [| c2 [| c3 [| c4 s]]]]]; cbn; try discriminate.
  intros _. now exists c0, c1, c2, c3.
Qed.

Lemma decode_length (naca : string) :
  String.length naca <> 4%nat -> decode naca = Raise ValueError.
Proof.
  intros H. unfold decode.
  destruct (String.length naca =? 4)%nat eqn:E; [| reflexivity].
  apply Nat.eqb_eq in E. contradiction.
Qed.

Lemma decode_4 (c0 c1 c2 c3 : ascii) :
  decode (String c0 (String c1 (String c2 (String c3 EmptyString)))) =
  (d0 <- int_of_1 c0 ;;
   d1 <- int_of_1 c1 ;;
   d23 <- int_of_2 c2 c3 ;;
   Ok (IZR d0 / 100.0, IZR d1 / 10.0, IZR d23 / 100.0)).
Proof.
  unfold decode. rewrite <- !py_int_1, <- py_int_2. reflexivity.
Qed.

Lemma accepted_code_length (naca : string) :
  accepted_code naca = true -> String.length naca = 4%nat.
Proof.
  destruct naca as [| c0 [| c1 [| c2 [| c3 [| c4 s]]]]]; cbn; try discriminate.
  reflexivity.
Qed.

Lemma valid_code_length (naca : string) :
  valid_code naca = true -> String.length naca = 4%nat.
Proof.
  unfold valid_code. intros H. apply andb_true_iff in H as [H _].
  now apply Nat.eqb_eq.
Qed.

Lemma decode_accepted (naca : string) :
  accepted_code naca = true -> exists m p t, decode naca = Ok (m, p, t).
Proof.
  intros H. destruct (string_length_4 _ (accepted_code_length _ H))
    as (c0 & c1 & c2 & c3 & ->).
  rewrite decode_4. revert H.
  unfold accepted_code, int_of_1, int_of_2. cbn [list_ascii_of_string].
  case_chars; cbn; try discriminate; intros _; eauto.
Qed.

Lemma decode_rejected (naca : string) :
  accepted_code naca = false -> decode naca = Raise ValueError.
Proof.
  intros H. destruct (Nat.eq_dec (String.length naca) 4) as [E | E].
  - destruct (string_length_4 _ E) as (c0 & c1 & c2 & c3 & ->).
    rewrite decode_4. revert H.
    unfold accepted_code, int_of_1, int_of_2. cbn [list_ascii_of_string].
    case_chars; cbn; try discriminate; reflexivity.
  - now apply decode_length.
Qed.

Lemma valid_code_accepted (naca : string) :
  valid_code naca = true -> accepted_code naca = true.
Proof.
  intros H. destruct (string_length_4 _ (valid_code_length _ H))
    as (c0 & c1 & c2 & c3 & ->).
  revert H. unfold valid_code, accepted_code. cbn.
  case_chars; cbn; try discriminate; reflexivity.
Qed.

Lemma decode_valid (naca : string) :
  valid_code naca = true ->
  decode naca =
  Ok (IZR (digit naca 0) / 100.0, IZR (digit naca 1) / 10.0,
      IZR (10 * digit naca 2 + digit naca 3) / 100.0).
Proof.
  intros H. destruct (string_length_4 _ (valid_code_length _ H))
    as (c0 & c1 & c2 & c3 & ->).
  rewrite decode_4. revert H.
  unfold valid_code, int_of_1, int_of_2, digit. cbn.
  case_chars; cbn; try discriminate; reflexivity.
Qed.

Lemma generate_accepted (naca : string) (n : Z) :
  accepted_code naca = true -> (2 <= n)%Z ->
  exists m p t,
    decode naca = Ok (m, p, t) /\
    generate_naca_airfoil_coordinates naca n = Ok (contour m p t n).
Proof.
  intros Ha Hn. destruct (decode_accepted _ Ha) as (m & p & t & Hd).
  exists m, p, t. split; [exact Hd |].
  unfold generate_naca_airfoil_coordinates. rewrite Hd. cbn [bind].
  now apply airfoil_coords_ok.
Qed.

Lemma generate_valid (naca : string) (n : Z) :
  valid_code naca = true -> (2 <= n)%Z ->
  generate_naca_airfoil_coordinates naca n =
  Ok (contour (IZR (digit naca 0) / 100.0) (IZR (digit naca 1) / 10.0)
              (IZR (10 * digit naca 2 + digit naca 3) / 100.0) n).
Proof.
  intros Hv Hn. unfold generate_naca_airfoil_coordinates.
  rewrite (decode_valid _ Hv). cbn [bind].
  now apply airfoil_coords_ok.
Qed.

(** ** The shape of the contour *)

Section Contour.
Variables m p t : R.
Variable n : Z.

Lemma contour_nth_upper (i : nat) (d : point) :
  (i < Z.to_nat n)%nat ->
  nth i (contour m p t n) d = upper_point m p t (sample n (Z.of_nat i)).
Proof.
  intros Hi. unfold contour.
  rewrite app_nth1 by (now rewrite length_map, samples_length).
  rewrite (nth_indep _ d (upper_point m p t 0)) by (now rewrite length_map, samples_length).
  rewrite (map_nth (upper_point m p t)), samples_nth by exact Hi. reflexivity.
Qed.

Lemma contour_nth_lower (i : nat) (d : point) :
  (i < Z.to_nat n)%nat ->
  nth (2 * Z.to_nat n - 1 - i) (contour m p t n) d = lower_point m p t (sample n (Z.of_nat i)).
Proof.
  intros Hi. unfold contour.
  rewrite app_nth2 by (rewrite length_map, samples_length; lia).
  rewrite length_map, samples_length.
  rewrite rev_nth by (rewrite length_map, samples_length; lia).
  rewrite length_map, samples_length.
  replace (Z.to_nat n - S (2 * Z.to_nat n - 1 - i - Z.to_nat n))%nat with i by lia.
  rewrite (nth_indep _ d (lower_point m p t 0)) by (now rewrite length_map, samples_length).
  rewrite (map_nth (lower_point m p t)), samples_nth by exact Hi. reflexivity.
Qed.

Lemma samples_cons :
  (1 <= n)%Z -> exists rest, samples n = 0 :: rest.
Proof.
  intros Hn. unfold samples, range.
  destruct (Z.to_nat n) as [| k] eqn:E; [lia |].
  cbn [seq map]. change (Z.of_nat 0) with 0%Z. rewrite sample_first. eauto.
Qed.

Lemma contour_first :
  (1 <= n)%Z -> hd_error (contour m p t n) = Some (upper_point m p t 0).
Proof.
  intros Hn. unfold contour.
  destruct (samples_cons Hn) as (rest & ->). reflexivity.
Qed.

Lemma contour_last (d : point) :
  (1 <= n)%Z -> last (contour m p t n) d = lower_point m p t 0.
Proof.
  intros Hn. unfold contour.
  destruct (samples_cons Hn) as (rest & ->).
  cbn [map rev]. rewrite app_assoc. apply last_last.
Qed.
End Contour.

Lemma half_thickness_0 (t : R) : half_thickness t 0 = 0.
Proof. unfold half_thickness. rewrite sqrt_0. ring. Qed.

Lemma surfaces_meet_at_0 (m p t : R) :
  upper_surface m p t 0 = (0, fst (camber_line m p 0)) /\
  lower_surface m p t 0 = (0, fst (camber_line m p 0)).
Proof.
  unfold upper_surface, lower_surface. cbn zeta.
  rewrite half_thickness_0. split; f_equal; ring.
Qed.

Lemma sample_increasing (n i j : Z) :
  (0 <= i)%Z -> (i < j)%Z -> (j <= n - 1)%Z -> sample n i < sample n j.
Proof.
  intros Hi Hij Hj. unfold sample.
  assert (Hn : 0 < IZR (n - 1)) by (apply IZR_lt; lia).
  assert (Hi' : 0 <= IZR i) by (apply IZR_le; lia).
  assert (Hij' : IZR i < IZR j) by (apply IZR_lt; lia).
  assert (Hj' : IZR j <= IZR (n - 1)) by (apply IZR_le; lia).
  pose proof PI_RGT_0 as Hpi.
  assert (Hq : forall k, PI * k / IZR (n - 1) = PI * (k / IZR (n - 1)))
    by (intros k; unfold Rdiv; ring).
  assert (Hqi : 0 <= IZR i / IZR (n - 1)) by (apply Rle_mult_inv_pos; lra).
  assert (Hqij : IZR i / IZR (n - 1) < IZR j / IZR (n - 1)).
  { unfold Rdiv. apply Rmult_lt_compat_r; [apply Rinv_0_lt_compat; lra | lra]. }
  assert (Hqj : IZR j / IZR (n - 1) <= 1).
  { apply (Rmult_le_reg_r (IZR (n - 1))); [lra |].
    unfold Rdiv. rewrite Rmult_assoc, Rinv_l by lra. lra. }
  enough (cos (PI * IZR j / IZR (n - 1)) < cos (PI * IZR i / IZR (n - 1))) by lra.
  rewrite !Hq. apply cos_decreasing_1; nra.
Qed.

Lemma last_nth {A : Type} (l : list A) (d : A) :
  last l d = nth (List.length l - 1) l d.
Proof.
  induction l as [| a [| b l] IH]; try reflexivity.
  change (last (a :: b :: l) d) with (last (b :: l) d). rewrite IH.
  cbn [List.length]. rewrite !Nat.sub_succ, !Nat.sub_0_r. reflexivity.
Qed.

Lemma range_spec (n i : Z) : In i (range n) <-> (0 <= i < n)%Z.
Proof.
  unfold range. rewrite in_map_iff. split.
  - intros (k & <- & Hk). apply in_seq in Hk. lia.
  - intros Hi. exists (Z.to_nat i). split; [lia |]. apply in_seq. lia.
Qed.

Lemma camber_line_p0 (m p x : R) :
  p = 0 -> camber_line m p x = (m * (1 - x * x), - 2 * m * x).
Proof.
  intros ->. unfold camber_line.
  rewrite (Rneqb_false 0 0 eq_refl), andb_false_r.
  rewrite (Rneqb_true 0 1) by lra.
  f_equal; field.
Qed.

(** With no camber ([m = 0], [p = 0]) the two surfaces mirror each other. *)
Lemma symmetric_points (m p t x : R) :
  m = 0 -> p = 0 ->
  upper_point m p t x = (x - 0.5, half_thickness t x) /\
  lower_point m p t x = (x - 0.5, - half_thickness t x).
Proof.
  intros Hm Hp.
  unfold upper_point, lower_point, recentre, reference, upper_surface, lower_surface.
  cbn [fst snd]. rewrite !(camber_line_p0 _ _ _ Hp). cbn [fst snd]. subst m.
  replace (- 2 * 0 * x) with 0 by ring.
  rewrite atan_0, sin_0, cos_0. split; f_equal; ring.
Qed.

(** * Properties of the generator *)

(** C3.  For every valid 4-digit code and every integer [num_points >= 2],
    the generator succeeds and returns exactly [2 * num_points] points; the
    abscissas it samples are [0.5 * (1 - cos (pi * i / (num_points - 1)))]
    for [i] in [[0, num_points)], and the points of index [i] and
    [2 * num_points - 1 - i] are the upper and the lower point of sample [i]. *)
Theorem generate_length_and_cosine_spacing (naca : string) (num_points : Z) :
  valid_code naca = true -> (2 <= num_points)%Z ->
  exists (m p t y_ref : R) (coords : list point),
    decode naca = Ok (m, p, t) /\
    y_lift m p = Ok y_ref /\
    generate_naca_airfoil_coordinates naca num_points = Ok coords /\
    Z.of_nat (List.length coords) = (2 * num_points)%Z /\
    (forall i : Z, In i (range num_points) <-> (0 <= i < num_points)%Z) /\
    x_coords num_points =
      Ok (map (fun i => 0.5 * (1 - cos (PI * IZR i / IZR (num_points - 1))))
              (range num_points)) /\
    forall i : nat, (Z.of_nat i < num_points)%Z ->
      surface_points m p t y_ref
        (0.5 * (1 - cos (PI * IZR (Z.of_nat i) / IZR (num_points - 1)))) =
      Ok (nth i coords (0, 0),
          nth (2 * Z.to_nat num_points - 1 - i) coords (0, 0)).
Proof.
  intros Hv Hn.
  destruct (generate_accepted naca num_points (valid_code_accepted _ Hv) Hn)
    as (m & p & t & Hd & Hg).
  exists m, p, t, (snd (reference m p)), (contour m p t num_points).
  refine (conj Hd (conj (y_lift_ok m p) (conj Hg (conj _ (conj _ (conj _ _)))))).
  - rewrite contour_length. lia.
  - intros i. apply range_spec.
  - now apply x_coords_ok.
  - intros i Hi.
    rewrite contour_nth_upper, contour_nth_lower by lia.
    apply (surface_points_ok m p t (sample num_points (Z.of_nat i))).
    apply sample_nonneg.
Qed.

Lemma generate_length_and_cosine_spacing_witness :
  exists coords : list point,
    generate_naca_airfoil_coordinates "2412" 20 = Ok coords /\
    List.length coords = 40%nat.
Proof.
  destruct (generate_length_and_cosine_spacing "2412" 20 eq_refl ltac:(lia))
    as (m & p & t & y_ref & coords & _ & _ & Hg & Hl & _).
  exists coords. split; [exact Hg | lia].
Defined.

Lemma digits_0012 :
  digit "0012" 0 = 0%Z /\ digit "0012" 1 = 0%Z /\
  digit "0012" 2 = 1%Z /\ digit "0012" 3 = 2%Z.
Proof. repeat split; reflexivity. Qed.

Lemma samples_2 : samples 2 = [0; 1].
Proof.
  unfold samples, range. change (Z.to_nat 2) with 2%nat. cbn [seq map].
  change (Z.of_nat 0) with 0%Z. change (Z.of_nat 1) with (2 - 1)%Z.
  rewrite sample_first, sample_last by lia. reflexivity.
Qed.

Lemma half_thickness_012_at_1 : half_thickness (12 / 100.0) 1 = 0.00126.
Proof. unfold half_thickness. rewrite sqrt_1. lra. Qed.

Lemma generate_0012_2 :
  generate_naca_airfoil_coordinates "0012" 2 =
  Ok [(-0.5, 0); (0.5, 0.00126); (0.5, -0.00126); (-0.5, 0)].
Proof.
  rewrite generate_valid by (reflexivity || lia).
  destruct digits_0012 as (-> & -> & -> & ->).
  change (10 * 1 + 2)%Z with 12%Z.
  unfold contour. rewrite samples_2. cbn [map rev app].
  assert (Hm : 0 / 100.0 = 0) by lra. assert (Hp : 0 / 10.0 = 0) by lra.
  destruct (symmetric_points _ _ (12 / 100.0) 0 Hm Hp) as [-> ->].
  destruct (symmetric_points _ _ (12 / 100.0) 1 Hm Hp) as [-> ->].
  rewrite half_thickness_0, half_thickness_012_at_1.
  points_eq.
Qed.

(** C2, as stated, fails: for the code 0012 and two samples per surface the
    first and the last point of the contour are the points of the sample
    [x = 0] (the leading edge), while the points of the sample [x = 1] (the
    trailing edge) are the two middle ones. *)
Lemma contour_ends_not_at_trailing_edge :
  exists (first last_pt te_upper te_lower : point),
    valid_code "0012" = true /\
    generate_naca_airfoil_coordinates "0012" 2 =
      Ok [first; te_upper; te_lower; last_pt] /\
    surface_points (0 / 100.0) (0 / 10.0) (12 / 100.0) 0 1 = Ok (te_upper, te_lower) /\
    surface_points (0 / 100.0) (0 / 10.0) (12 / 100.0) 0 0 = Ok (first, last_pt) /\
    first <> te_upper /\ last_pt <> te_lower /\
    fst first + x_lift = 0 /\ fst last_pt + x_lift = 0 /\
    fst te_upper + x_lift = 1 /\ fst te_lower + x_lift = 1.
Proof.
  exists (-0.5, 0), (-0.5, 0), (0.5, 0.00126), (0.5, -0.00126).
  assert (Hm : 0 / 100.0 = 0) by lra. assert (Hp : 0 / 10.0 = 0) by lra.
  assert (Hy : snd (reference (0 / 100.0) (0 / 10.0)) = 0).
  { unfold reference. cbn [snd]. rewrite (camber_line_p0 _ _ _ Hp). cbn [fst]. lra. }
  assert (Hs : forall x, 0 <= x ->
             surface_points (0 / 100.0) (0 / 10.0) (12 / 100.0) 0 x =
             Ok ((x - 0.5, half_thickness (12 / 100.0) x),
                 (x - 0.5, - half_thickness (12 / 100.0) x))).
  { intros x Hx.
    pose proof (surface_points_ok (0 / 100.0) (0 / 10.0) (12 / 100.0) x Hx) as H.
    rewrite Hy in H. rewrite H.
    now destruct (symmetric_points _ _ (12 / 100.0) x Hm Hp) as [-> ->]. }
  refine (conj eq_refl (conj generate_0012_2 (conj _ (conj _ _)))).
  - rewrite Hs by lra. rewrite half_thickness_012_at_1. points_eq.
  - rewrite Hs by lra. rewrite half_thickness_0. points_eq.
  - unfold x_lift. cbn [fst].
    repeat split; try lra; intros E; injection E; lra.
Qed.

(** C2, amended.  For every valid 4-digit code and [num_points >= 2] the
    contour is the upper-surface sequence (samples in increasing order, from
    the leading edge [x = 0] to the trailing edge [x = 1]) followed by the
    lower-surface sequence reversed; its first and its last point are the
    points of the leading edge, and the points of the trailing edge are the
    two middle ones, of index [num_points - 1] and [num_points]. *)
Theorem contour_upper_then_reversed_lower (naca : string) (num_points : Z) :
  valid_code naca = true -> (2 <= num_points)%Z ->
  exists (m p t y_ref : R) (xs : list R)
         (upper_points lower_points : list point)
         (le_upper le_lower te_upper te_lower : point),
    decode naca = Ok (m, p, t) /\
    y_lift m p = Ok y_ref /\
    x_coords num_points = Ok xs /\
    surface_loop m p t y_ref xs [] [] = Ok (upper_points, lower_points) /\
    generate_naca_airfoil_coordinates naca num_points =
      Ok (upper_points ++ rev lower_points) /\
    List.length upper_points = Z.to_nat num_points /\
    List.length lower_points = Z.to_nat num_points /\
    hd_error xs = Some 0 /\
    last xs 0 = 1 /\
    (forall i j : nat, (i < j)%nat -> (j < Z.to_nat num_points)%nat ->
       nth i xs 0 < nth j xs 0) /\
    surface_points m p t y_ref 0 = Ok (le_upper, le_lower) /\
    surface_points m p t y_ref 1 = Ok (te_upper, te_lower) /\
    hd_error (upper_points ++ rev lower_points) = Some le_upper /\
    last (upper_points ++ rev lower_points) (0, 0) = le_lower /\
    nth (Z.to_nat num_points - 1) (upper_points ++ rev lower_points) (0, 0) = te_upper /\
    nth (Z.to_nat num_points) (upper_points ++ rev lower_points) (0, 0) = te_lower.
Proof.
  intros Hv Hn.
  destruct (generate_accepted naca num_points (valid_code_accepted _ Hv) Hn)
    as (m & p & t & Hd & Hg).
  assert (Hlast : sample num_points (Z.of_nat (Z.to_nat num_points - 1)) = 1).
  { replace (Z.of_nat (Z.to_nat num_points - 1)) with (num_points - 1)%Z by lia.
    now apply sample_last. }
  exists m, p, t, (snd (reference m p)), (samples num_points),
    (map (upper_point m p t) (samples num_points)),
    (map (lower_point m p t) (samples num_points)),
    (upper_point m p t 0), (lower_point m p t 0),
    (upper_point m p t 1), (lower_point m p t 1).
  refine (conj Hd (conj (y_lift_ok m p) (conj (x_coords_ok _ Hn) _))).
  refine (conj (surface_loop_ok m p t _ (samples_nonneg _) [] []) (conj Hg _)).
  fold (contour m p t num_points).
  repeat apply conj.
  - now rewrite length_map, samples_length.
  - now rewrite length_map, samples_length.
  - destruct (samples_cons num_points) as (rest & ->); [lia | reflexivity].
  - rewrite last_nth, samples_length, samples_nth by lia. exact Hlast.
  - intros i j Hij Hj. rewrite !samples_nth by lia.
    apply sample_increasing; lia.
  - apply surface_points_ok. lra.
  - apply surface_points_ok. lra.
  - apply contour_first. lia.
  - apply contour_last. lia.
  - rewrite contour_nth_upper by lia. now rewrite Hlast.
  - replace (Z.to_nat num_points)
      with (2 * Z.to_nat num_points - 1 - (Z.to_nat num_points - 1))%nat at 1 by lia.
    rewrite contour_nth_lower by lia. now rewrite Hlast.
Qed.

Lemma contour_upper_then_reversed_lower_witness :
  exists upper_points lower_points : list point,
    generate_naca_airfoil_coordinates "2412" 20 =
      Ok (upper_points ++ rev lower_points) /\
    List.length upper_points = 20%nat /\ List.length lower_points = 20%nat.
Proof.
  destruct (contour_upper_then_reversed_lower "2412" 20 eq_refl ltac:(lia))
    as (m & p & t & y_ref & xs & ups & los & _ & _ & _ & _ & _ & _ & _ & _ & Hg & Hu & Hl & _).
  exists ups, los. repeat split; assumption.
Defined.

(** C10.  For every valid 4-digit code and every [num_points >= 2] the first
    and the last point of the contour are equal: both are the point of the
    sample [x = 0], where the half thickness is zero, moved by the reference
    point. *)
Theorem contour_closes_at_leading_edge (naca : string) (num_points : Z) :
  valid_code naca = true -> (2 <= num_points)%Z ->
  exists (m p t y_ref y_c dyc_dx : R) (coords : list point) (first last_pt : point),
    decode naca = Ok (m, p, t) /\
    y_lift m p = Ok y_ref /\
    generate_naca_airfoil_coordinates naca num_points = Ok coords /\
    hd_error coords = Some first /\
    last coords (0, 0) = last_pt /\
    first = last_pt /\
    x_coord num_points 0 = Ok 0 /\
    thickness t 0 = Ok 0 /\
    camber m p 0 = Ok (y_c, dyc_dx) /\
    surface_points m p t y_ref 0 = Ok (first, last_pt) /\
    first = (0 - x_lift, y_c - y_ref).
Proof.
  intros Hv Hn.
  destruct (generate_accepted naca num_points (valid_code_accepted _ Hv) Hn)
    as (m & p & t & Hd & Hg).
  destruct (surfaces_meet_at_0 m p t) as [Hu Hl].
  assert (Hul : upper_point m p t 0 = lower_point m p t 0).
  { unfold upper_point, lower_point. now rewrite Hu, Hl. }
  exists m, p, t, (snd (reference m p)),
    (fst (camber_line m p 0)), (snd (camber_line m p 0)),
    (contour m p t num_points), (upper_point m p t 0), (lower_point m p t 0).
  refine (conj Hd (conj (y_lift_ok m p) (conj Hg _))).
  repeat apply conj.
  - apply contour_first. lia.
  - apply contour_last. lia.
  - exact Hul.
  - rewrite (x_coord_ok _ _ Hn), sample_first. reflexivity.
  - rewrite thickness_ok, half_thickness_0 by lra. reflexivity.
  - rewrite camber_ok. now destruct (camber_line m p 0).
  - apply surface_points_ok. lra.
  - unfold upper_point, recentre. rewrite Hu. reflexivity.
Qed.

Lemma contour_closes_at_leading_edge_witness :
  exists (coords : list point) (pt : point),
    generate_naca_airfoil_coordinates "2412" 20 = Ok coords /\
    hd_error coords = Some pt /\ last coords (0, 0) = pt.
Proof.
  destruct (contour_closes_at_leading_edge "2412" 20 eq_refl ltac:(lia))
    as (m & p & t & y_ref & y_c & d & coords & first & last_pt
        & _ & _ & Hg & Hf & Hl & E & _).
  exists coords, first. rewrite E at 2. repeat split; assumption.
Defined.

(** C8.  The generator computes one reference point, at the fixed chord
    fraction [x_lift = 0.5] and by the formula of the camber line; it does
    not depend on [num_points].  Every upper and every lower point of the
    contour is the surface point with the reference point subtracted. *)
Theorem contour_centred_on_reference (naca : string) :
  valid_code naca = true ->
  exists (m p t y_ref dy_ref : R),
    decode naca = Ok (m, p, t) /\
    x_lift = 0.5 /\
    y_lift m p = Ok y_ref /\
    camber m p x_lift = Ok (y_ref, dy_ref) /\
    forall num_points : Z, (2 <= num_points)%Z ->
      exists coords : list point,
        generate_naca_airfoil_coordinates naca num_points = Ok coords /\
        forall i : nat, (i < Z.to_nat num_points)%nat ->
          exists x y_c dyc_dx y_t : R,
            x_coord num_points (Z.of_nat i) = Ok x /\
            camber m p x = Ok (y_c, dyc_dx) /\
            thickness t x = Ok y_t /\
            nth i coords (0, 0) =
              (x - y_t * sin (atan dyc_dx) - x_lift,
               y_c + y_t * cos (atan dyc_dx) - y_ref) /\
            nth (2 * Z.to_nat num_points - 1 - i) coords (0, 0) =
              (x + y_t * sin (atan dyc_dx) - x_lift,
               y_c - y_t * cos (atan dyc_dx) - y_ref).
Proof.
  intros Hv.
  destruct (decode_accepted naca (valid_code_accepted _ Hv)) as (m & p & t & Hd).
  exists m, p, t, (snd (reference m p)), (snd (camber_line m p x_lift)).
  refine (conj Hd (conj eq_refl (conj (y_lift_ok m p) (conj _ _)))).
  - rewrite camber_ok. unfold reference, x_lift. cbn [snd].
    now destruct (camber_line m p 0.5).
  - intros n Hn. exists (contour m p t n). split.
    + unfold generate_naca_airfoil_coordinates. rewrite Hd. cbn [bind].
      now apply airfoil_coords_ok.
    + intros i Hi.
      exists (sample n (Z.of_nat i)),
        (fst (camber_line m p (sample n (Z.of_nat i)))),
        (snd (camber_line m p (sample n (Z.of_nat i)))),
        (half_thickness t (sample n (Z.of_nat i))).
      rewrite contour_nth_upper, contour_nth_lower by exact Hi.
      repeat apply conj.
      * now apply x_coord_ok.
      * rewrite camber_ok. now destruct (camber_line m p _).
      * apply thickness_ok, sample_nonneg.
      * reflexivity.
      * reflexivity.
Qed.

Lemma contour_centred_on_reference_witness :
  exists y_ref : R,
    y_lift (IZR 2 / 100.0) (IZR 4 / 10.0) = Ok y_ref /\
    exists coords : list point,
      generate_naca_airfoil_coordinates "2412" 20 = Ok coords.
Proof.
  destruct (contour_centred_on_reference "2412" eq_refl)
    as (m & p & t & y_ref & dy_ref & Hd & _ & Hy & _ & Hg).
  rewrite (decode_valid "2412" eq_refl) in Hd.
  injection Hd as <- <- <-.
  exists y_ref. split; [exact Hy |].
  destruct (Hg 20%Z ltac:(lia)) as (coords & Hc & _).
  now exists coords.
Defined.

Lemma digits_2012 :
  digit "2012" 0 = 2%Z /\ digit "2012" 1 = 0%Z /\
  digit "2012" 2 = 1%Z /\ digit "2012" 3 = 2%Z.
Proof. repeat split; reflexivity. Qed.

Lemma second_digit_zero (naca : string) :
  valid_code naca = true -> second_digit naca = "0"%string -> digit naca 1 = 0%Z.
Proof.
  intros Hv. destruct (string_length_4 _ (valid_code_length _ Hv))
    as (c0 & c1 & c2 & c3 & ->).
  unfold second_digit, digit. cbn. intros [= ->]. reflexivity.
Qed.

(** C1, as stated, fails: the code 2012 is valid and its second digit is 0,
    yet at the sample [x = 0] the camber line has the ordinate 0.02. *)
Lemma camber_second_digit_zero_not_flat :
  exists (m p t y_c dyc_dx : R) (xs : list R),
    valid_code "2012" = true /\
    second_digit "2012" = "0"%string /\
    decode "2012" = Ok (m, p, t) /\
    p = 0 /\
    x_coords 2 = Ok xs /\
    In 0 xs /\
    camber m p 0 = Ok (y_c, dyc_dx) /\
    y_c = 0.02 /\
    y_c <> 0.
Proof.
  exists (IZR 2 / 100.0), (IZR 0 / 10.0), (IZR 12 / 100.0), 0.02, 0, [0; 1].
  assert (Hp : 0 / 10.0 = 0) by lra.
  refine (conj eq_refl (conj eq_refl (conj _ (conj Hp (conj _ (conj _ (conj _ _))))))).
  - rewrite (decode_valid "2012" eq_refl).
    now destruct digits_2012 as (-> & -> & -> & ->).
  - rewrite x_coords_ok by lia. now rewrite samples_2.
  - now left.
  - rewrite camber_ok, (camber_line_p0 _ _ _ Hp). points_eq.
  - split; lra.
Qed.

(** C1, amended.  For every valid 4-digit code whose second digit is 0
    ([p = 0]) the camber line is [y_c = m * (1 - x^2)] with the slope
    [dyc_dx = - 2 * m * x] at every [x]; it is identically zero when the first
    digit is 0 too, and it is not when the first digit is not 0. *)
Theorem camber_second_digit_zero (naca : string) :
  valid_code naca = true -> second_digit naca = "0"%string ->
  exists m p t : R,
    decode naca = Ok (m, p, t) /\
    m = IZR (digit naca 0) / 100 /\
    p = 0 /\
    (forall x : R, camber m p x = Ok (m * (1 - x * x), - 2 * m * x)) /\
    (digit naca 0 = 0%Z -> forall x : R, camber m p x = Ok (0, 0)) /\
    (digit naca 0 <> 0%Z -> exists y_c : R, camber m p 0 = Ok (y_c, 0) /\ y_c <> 0).
Proof.
  intros Hv H0.
  exists (IZR (digit naca 0) / 100.0), (IZR (digit naca 1) / 10.0),
    (IZR (10 * digit naca 2 + digit naca 3) / 100.0).
  assert (Hp : IZR (digit naca 1) / 10.0 = 0).
  { rewrite (second_digit_zero _ Hv H0). lra. }
  assert (Hc : forall m x, camber m (IZR (digit naca 1) / 10.0) x =
                           Ok (m * (1 - x * x), - 2 * m * x)).
  { intros m x. now rewrite camber_ok, (camber_line_p0 _ _ _ Hp). }
  refine (conj (decode_valid _ Hv) (conj _ (conj Hp (conj _ (conj _ _))))).
  - lra.
  - intros x. apply Hc.
  - intros E x. rewrite Hc, E. points_eq.
  - intros E. exists (IZR (digit naca 0) / 100.0 * (1 - 0 * 0)). split.
    + rewrite Hc. points_eq.
    + assert (IZR (digit naca 0) <> 0) by (now apply not_0_IZR). lra.
Qed.

Lemma camber_second_digit_zero_witness :
  exists m p t : R,
    decode "0012" = Ok (m, p, t) /\ forall x : R, camber m p x = Ok (0, 0).
Proof.
  destruct (camber_second_digit_zero "0012" eq_refl eq_refl)
    as (m & p & t & Hd & _ & _ & _ & Hz & _).
  exists m, p, t. split; [exact Hd | exact (Hz eq_refl)].
Defined.

Lemma x_coords_1 : x_coords 1 = Raise ZeroDivisionError.
Proof.
  unfold x_coords, range. change (Z.to_nat 1) with 1%nat.
  cbn [seq map x_coords_loop]. unfold x_coord.
  change (IZR (1 - 1)) with 0. rewrite py_div_zero. reflexivity.
Qed.

Lemma x_coords_nonpos (n : Z) : (n <= 0)%Z -> x_coords n = Ok [].
Proof.
  intros Hn. unfold x_coords, range.
  replace (Z.to_nat n) with 0%nat by lia. reflexivity.
Qed.

(** Once the code is decoded, the only failure left is the division by
    [num_points - 1 = 0]. *)
Lemma airfoil_coords_cases (m p t : R) (n : Z) :
  (2 <= n)%Z /\ airfoil_coords m p t n = Ok (contour m p t n) \/
  n = 1%Z /\ airfoil_coords m p t n = Raise ZeroDivisionError \/
  (n <= 0)%Z /\ airfoil_coords m p t n = Ok [].
Proof.
  destruct (Z_lt_le_dec n 2) as [Hlt | Hge].
  - right. destruct (Z.eq_dec n 1) as [-> | Hne].
    + left. split; [reflexivity |].
      unfold airfoil_coords. rewrite y_lift_ok. cbn [bind].
      now rewrite x_coords_1.
    + right. assert (Hn : (n <= 0)%Z) by lia. split; [exact Hn |].
      unfold airfoil_coords. rewrite y_lift_ok. cbn [bind].
      now rewrite (x_coords_nonpos _ Hn).
  - left. split; [exact Hge | now apply airfoil_coords_ok].
Qed.

(** C7, as stated, fails: the code 24+1 has four characters and one of
    them is no digit, yet [int] reads its last two characters as 1 and the
    generator returns a contour. *)
Lemma generate_nondigit_accepted :
  exists (m p t : R),
    String.length "24+1" = 4%nat /\
    forallb isdigit (list_ascii_of_string "24+1") = false /\
    valid_code "24+1" = false /\
    py_int (str_from "24+1" 2) = Ok 1%Z /\
    decode "24+1" = Ok (m, p, t) /\
    generate_naca_airfoil_coordinates "24+1" 2 = Ok (contour m p t 2).
Proof.
  destruct (generate_accepted "24+1" 2 eq_refl ltac:(lia)) as (m & p & t & Hd & Hg).
  exists m, p, t.
  refine (conj eq_refl (conj eq_refl (conj eq_refl (conj eq_refl (conj Hd Hg))))).
Qed.

(** C7, amended.  The generator fails with [ValueError] exactly for the codes
    that [accepted_code] rejects: those that are not exactly 4 characters
    long, those whose first or second character is no digit, and those whose
    last two characters [int] does not read (it reads two digits, a digit
    after a sign or a white space, and a digit before a white space).  Every
    code of four digits is accepted.  The failure is raised by the decoding,
    before any point is computed. *)
Theorem generate_invalid_code (naca : string) (num_points : Z) :
  (generate_naca_airfoil_coordinates naca num_points = Raise ValueError
   <-> accepted_code naca = false) /\
  (accepted_code naca = false -> decode naca = Raise ValueError) /\
  (String.length naca <> 4%nat -> accepted_code naca = false) /\
  (forall i : nat, (i < 2)%nat ->
     isdigit (nth i (list_ascii_of_string naca) " "%char) = false ->
     accepted_code naca = false) /\
  (py_int (str_from naca 2) = Raise ValueError -> accepted_code naca = false) /\
  (valid_code naca = true -> accepted_code naca = true).
Proof.
  repeat apply conj.
  - intros Hg. destruct (accepted_code naca) eqn:Ha; [| reflexivity].
    destruct (decode_accepted _ Ha) as (m & p & t & Hd).
    unfold generate_naca_airfoil_coordinates in Hg. rewrite Hd in Hg. cbn [bind] in Hg.
    destruct (airfoil_coords_cases m p t num_points)
      as [[_ E] | [[_ E] | [_ E]]]; rewrite E in Hg; discriminate.
  - intros Ha. unfold generate_naca_airfoil_coordinates.
    now rewrite (decode_rejected _ Ha).
  - apply decode_rejected.
  - intros Hl. destruct (accepted_code naca) eqn:Ha; [| reflexivity].
    now apply accepted_code_length in Ha.
  - intros i Hi Hd. destruct (accepted_code naca) eqn:Ha; [| reflexivity].
    destruct (string_length_4 _ (accepted_code_length _ Ha))
      as (c0 & c1 & c2 & c3 & ->).
    revert Ha Hd. unfold accepted_code. cbn [list_ascii_of_string].
    destruct i as [| [| i]]; [| | lia]; cbn [nth]; intros Ha Hd;
      rewrite Hd in Ha; cbn in Ha; try discriminate.
    now rewrite andb_false_r in Ha.
  - intros Hi. destruct (accepted_code naca) eqn:Ha; [| reflexivity].
    destruct (string_length_4 _ (accepted_code_length _ Ha))
      as (c0 & c1 & c2 & c3 & ->).
    revert Ha Hi. change (str_from _ 2) with (String c2 (String c3 EmptyString)).
    rewrite py_int_2. unfold accepted_code, int_of_2. cbn [list_ascii_of_string].
    case_chars; cbn; discriminate.
  - apply valid_code_accepted.
Qed.

(** * Properties of the placement schedule *)

Lemma get_scale_below (fraction : R) :
  fraction < 0.6 -> get_scale fraction = Ok (1.2 * (- (fraction - 0.6) ^ 2 + 1)).
Proof. intros H. unfold get_scale. cbn zeta. now rewrite (Rltb_true _ _ H). Qed.

Lemma get_scale_above (fraction : R) :
  0.6 <= fraction ->
  get_scale fraction =
  (s <- math_sqrt (1 - (1 / (1 - 0.6) * (fraction - 0.6)) ^ 2) ;; Ok (1.2 * s)).
Proof.
  intros H. unfold get_scale. cbn zeta. rewrite (Rltb_false _ _ H).
  rewrite py_div_ok by lra. reflexivity.
Qed.

Lemma scale_argument (fraction : R) :
  1 - (1 / (1 - 0.6) * (fraction - 0.6)) ^ 2 =
  1 - 6.25 * (fraction - 0.6) * (fraction - 0.6).
Proof.
  replace (1 / (1 - 0.6)) with 2.5 by lra.
  cbn [pow]. rewrite Rmult_1_r.
  replace (2.5 * (fraction - 0.6) * (2.5 * (fraction - 0.6)))
    with (2.5 * 2.5 * ((fraction - 0.6) * (fraction - 0.6))) by ring.
  replace (2.5 * 2.5) with 6.25 by lra. ring.
Qed.

Lemma get_scale_domain_error (fraction : R) :
  1 < fraction -> get_scale fraction = Raise ValueError.
Proof.
  intros H. rewrite get_scale_above by lra.
  rewrite math_sqrt_neg; [reflexivity |].
  rewrite scale_argument. nra.
Qed.

Lemma get_scale_ellipse (fraction : R) :
  0.6 <= fraction <= 1 ->
  get_scale fraction =
  Ok (1.2 * sqrt (1 - (1 / (1 - 0.6) * (fraction - 0.6)) ^ 2)).
Proof.
  intros [H1 H2]. rewrite get_scale_above by lra.
  rewrite math_sqrt_ok; [reflexivity |].
  rewrite scale_argument. nra.
Qed.

Lemma get_scale_peak : get_scale 0.6 = Ok 1.2.
Proof.
  rewrite get_scale_ellipse by lra. rewrite scale_argument.
  replace (1 - 6.25 * (0.6 - 0.6) * (0.6 - 0.6)) with 1 by lra.
  rewrite sqrt_1. points_eq.
Qed.

Lemma get_scale_tip : get_scale 1 = Ok 0.
Proof.
  rewrite get_scale_ellipse by lra. rewrite scale_argument.
  replace (1 - 6.25 * (1 - 0.6) * (1 - 0.6)) with 0 by lra.
  rewrite sqrt_0. points_eq.
Qed.

Lemma get_scale_continuous_at_peak (eps : R) :
  0 < eps ->
  exists delta : R, 0 < delta /\
    forall fraction v : R,
      Rabs (fraction - 0.6) < delta -> get_scale fraction = Ok v ->
      Rabs (v - 1.2) < eps.
Proof.
  intros Heps. exists (Rmin 0.4 (eps / 3)). split.
  - apply Rmin_glb_lt; lra.
  - intros f v Hf Hv.
    assert (Hd1 : Rabs (f - 0.6) < 0.4) by (eapply Rlt_le_trans; [exact Hf | apply Rmin_l]).
    assert (Hd2 : Rabs (f - 0.6) < eps / 3) by (eapply Rlt_le_trans; [exact Hf | apply Rmin_r]).
    apply Rabs_def2 in Hd1 as [Ha Hb]. apply Rabs_def2 in Hd2 as [Hc Hd].
    destruct (Rlt_le_dec f 0.6) as [Hlt | Hge].
    + rewrite (get_scale_below _ Hlt) in Hv. injection Hv as <-.
      apply Rabs_def1; cbn [pow]; nra.
    + rewrite get_scale_ellipse, scale_argument in Hv by lra. injection Hv as <-.
      set (a := 1 - 6.25 * (f - 0.6) * (f - 0.6)).
      assert (Ha0 : 0 <= a) by (unfold a; nra).
      assert (Ha1 : a <= 1) by (unfold a; nra).
      pose proof (sqrt_pos a) as Hs0.
      pose proof (sqrt_sqrt a Ha0) as Hss.
      assert (Hs1 : sqrt a <= 1).
      { rewrite <- sqrt_1. apply sqrt_le_1_alt. exact Ha1. }
      assert (Hsa : a <= sqrt a) by nra.
      apply Rabs_def1; unfold a in *; nra.
Qed.

(** C5.  [get_scale] is the piecewise function: below 0.6 the parabola
    [1.2 * (1 - (fraction - 0.6)^2)], from 0.6 to 1 the ellipse
    [1.2 * sqrt (1 - ((fraction - 0.6) / 0.4)^2)].  Both pieces take the value
    1.2 at 0.6, where the function is continuous, and the value at 1 is 0. *)
Theorem get_scale_piecewise (fraction : R) :
  (fraction < 0.6 ->
   get_scale fraction = Ok (1.2 * (1 - (fraction - 0.6) ^ 2))) /\
  (0.6 <= fraction <= 1 ->
   get_scale fraction = Ok (1.2 * sqrt (1 - ((fraction - 0.6) / 0.4) ^ 2))) /\
  1.2 * (1 - (0.6 - 0.6) ^ 2) = 1.2 /\
  1.2 * sqrt (1 - ((0.6 - 0.6) / 0.4) ^ 2) = 1.2 /\
  get_scale 0.6 = Ok 1.2 /\
  get_scale 1 = Ok 0 /\
  (forall eps : R, 0 < eps ->
   exists delta : R, 0 < delta /\
     forall f v : R,
       Rabs (f - 0.6) < delta -> get_scale f = Ok v -> Rabs (v - 1.2) < eps).
Proof.
  repeat apply conj.
  - intros H. rewrite (get_scale_below _ H). points_eq.
  - intros H. rewrite (get_scale_ellipse _ H). do 3 f_equal.
    rewrite scale_argument. cbn [pow]. lra.
  - cbn [pow]. lra.
  - replace (1 - ((0.6 - 0.6) / 0.4) ^ 2) with 1 by (cbn [pow]; lra).
    rewrite sqrt_1. lra.
  - exact get_scale_peak.
  - exact get_scale_tip.
  - exact get_scale_continuous_at_peak.
Qed.

(** C6.  For every fraction above 1, [get_scale] raises the domain error of
    [math.sqrt] (a [ValueError]); it returns no value. *)
Theorem get_scale_raises_above_1 (fraction : R) :
  1 < fraction -> get_scale fraction = Raise ValueError.
Proof. apply get_scale_domain_error. Qed.

Lemma get_scale_raises_above_1_witness : get_scale 2 = Raise ValueError.
Proof. apply (get_scale_raises_above_1 2). lra. Defined.

(** C4, as stated, fails: 1 and -1 are outside [[0, 1)], and [get_scale]
    returns a value for both. *)
Lemma get_scale_no_error_outside_unit_interval :
  get_scale 1 = Ok 0 /\ get_scale (-1) = Ok (-1.872) /\
  ~ (0 <= 1 < 1) /\ ~ (0 <= -1 < 1).
Proof.
  refine (conj get_scale_tip (conj _ (conj _ _))).
  - rewrite get_scale_below by lra. points_eq.
  - lra.
  - lra.
Qed.

(** C4, amended.  [get_scale] raises an error (the domain error of
    [math.sqrt]) exactly for the fractions above 1.  For every fraction up to
    1 it returns a value: for a negative fraction the value of the parabola
    [1.2 * (1 - (fraction - 0.6)^2)], and 0 for the fraction 1. *)
Theorem get_scale_error_iff_above_1 (fraction : R) :
  (get_scale fraction = Raise ValueError <-> 1 < fraction) /\
  (forall e : exn, get_scale fraction = Raise e -> e = ValueError) /\
  (fraction < 0 ->
   get_scale fraction = Ok (1.2 * (1 - (fraction - 0.6) ^ 2))) /\
  get_scale 1 = Ok 0 /\
  (fraction <= 1 -> exists v : R, get_scale fraction = Ok v).
Proof.
  assert (Hok : fraction <= 1 -> exists v : R, get_scale fraction = Ok v).
  { intros H. destruct (Rlt_le_dec fraction 0.6) as [Hlt | Hge].
    - rewrite (get_scale_below _ Hlt). eauto.
    - rewrite get_scale_ellipse by lra. eauto. }
  repeat apply conj.
  - intros H. destruct (Rlt_le_dec 1 fraction) as [Hlt | Hle]; [exact Hlt |].
    destruct (Hok Hle) as (v & Hv). rewrite Hv in H. discriminate.
  - apply get_scale_domain_error.
  - intros e H. destruct (Rlt_le_dec 1 fraction) as [Hlt | Hle].
    + rewrite (get_scale_domain_error _ Hlt) in H. now injection H.
    + destruct (Hok Hle) as (v & Hv). rewrite Hv in H. discriminate.
  - intros H. rewrite get_scale_below by lra. points_eq.
  - exact get_scale_tip.
  - exact Hok.
Qed.

(** C9.  [end_point] evaluates [get_skew_angle 1 = pi / 2] and builds the
    point [(0, r - cos (pi/2) * r, - sin (pi/2) * r) = (0, r, - r)]; for
    [r = 2] this is [(0, 2, -2)]. *)
Theorem end_point_tip (skew_r : R) :
  get_skew_angle 1 = PI / 2 /\
  end_point skew_r =
    Point3D_create 0 (skew_r - cos (PI / 2) * skew_r) (- sin (PI / 2) * skew_r) /\
  end_point skew_r = Point3D_create 0 skew_r (- skew_r) /\
  end_point 2 = Point3D_create 0 2 (-2).
Proof.
  assert (Ha : get_skew_angle 1 = PI / 2) by (unfold get_skew_angle; lra).
  assert (He : forall r, end_point r = Point3D_create 0 r (- r)).
  { intros r. unfold end_point. cbn zeta. rewrite Ha, cos_PI2, sin_PI2.
    f_equal; ring. }
  repeat apply conj.
  - exact Ha.
  - unfold end_point. cbn zeta. now rewrite Ha.
  - apply He.
  - rewrite He. reflexivity.
Qed.

(** * Further properties of the generator *)

(** X1.  With one sample per surface the generator raises
    [ZeroDivisionError] (the division by [num_points - 1]), for every code
    that the decoding accepts. *)
Theorem generate_one_point_divides_by_zero (naca : string) :
  accepted_code naca = true ->
  generate_naca_airfoil_coordinates naca 1 = Raise ZeroDivisionError.
Proof.
  intros Ha. destruct (decode_accepted _ Ha) as (m & p & t & Hd).
  unfold generate_naca_airfoil_coordinates. rewrite Hd. cbn [bind].
  destruct (airfoil_coords_cases m p t 1) as [[H _] | [[_ E] | [H _]]];
    [lia | exact E | lia].
Qed.

Lemma generate_one_point_divides_by_zero_witness :
  generate_naca_airfoil_coordinates "2412" 1 = Raise ZeroDivisionError.
Proof. apply (generate_one_point_divides_by_zero "2412"). reflexivity. Defined.

(** X2.  With no sample, or a negative number of samples, the generator
    returns the empty contour, for every code that the decoding accepts. *)
Theorem generate_no_point_is_empty (naca : string) (num_points : Z) :
  accepted_code naca = true -> (num_points <= 0)%Z ->
  generate_naca_airfoil_coordinates naca num_points = Ok [].
Proof.
  intros Ha Hn. destruct (decode_accepted _ Ha) as (m & p & t & Hd).
  unfold generate_naca_airfoil_coordinates. rewrite Hd. cbn [bind].
  destruct (airfoil_coords_cases m p t num_points) as [[H _] | [[H _] | [_ E]]];
    [lia | lia | exact E].
Qed.

Lemma generate_no_point_is_empty_witness :
  generate_naca_airfoil_coordinates "2412" 0 = Ok [].
Proof. apply (generate_no_point_is_empty "2412" 0); [reflexivity | lia]. Defined.

Lemma isdigit_value (c : ascii) :
  isdigit c = true -> (0 <= digit_value c <= 9)%Z.
Proof.
  unfold isdigit, digit_value. cbv zeta. intros H.
  apply andb_true_iff in H as [H1 H2].
  apply Nat.leb_le in H1, H2.
  lia.
Qed.

Lemma list_ascii_length (s : string) :
  List.length (list_ascii_of_string s) = String.length s.
Proof. induction s as [| c s IH]; cbn; [reflexivity | now rewrite IH]. Qed.

Lemma valid_code_digit (naca : string) (i : nat) :
  valid_code naca = true -> (i < 4)%nat -> (0 <= digit naca i <= 9)%Z.
Proof.
  intros Hv Hi. unfold digit. apply isdigit_value.
  unfold valid_code in Hv. apply andb_true_iff in Hv as [Hl Hd].
  rewrite forallb_forall in Hd. apply Hd, nth_In.
  apply Nat.eqb_eq in Hl.
  now rewrite list_ascii_length, Hl.
Qed.

(** X3.  A code of four digits [d0 d1 d2 d3] decodes to [m = d0 / 100],
    [p = d1 / 10] and [t = (10 * d2 + d3) / 100]; these lie in the ranges
    [0 <= m <= 0.09], [0 <= p <= 0.9] and [0 <= t <= 0.99], so [p] is never 1
    and the zero-camber branch of lines 70-72 is never taken. *)
Theorem decode_valid_ranges (naca : string) :
  valid_code naca = true ->
  exists m p t : R,
    decode naca = Ok (m, p, t) /\
    m = IZR (digit naca 0) / 100 /\
    p = IZR (digit naca 1) / 10 /\
    t = IZR (10 * digit naca 2 + digit naca 3) / 100 /\
    0 <= m <= 0.09 /\ 0 <= p <= 0.9 /\ 0 <= t <= 0.99 /\
    Rneqb p 1 = true.
Proof.
  intros Hv.
  exists (IZR (digit naca 0) / 100.0), (IZR (digit naca 1) / 10.0),
    (IZR (10 * digit naca 2 + digit naca 3) / 100.0).
  pose proof (valid_code_digit naca 0 Hv ltac:(lia)) as [H0 H0'].
  pose proof (valid_code_digit naca 1 Hv ltac:(lia)) as [H1 H1'].
  pose proof (valid_code_digit naca 2 Hv ltac:(lia)) as [H2 H2'].
  pose proof (valid_code_digit naca 3 Hv ltac:(lia)) as [H3 H3'].
  apply IZR_le in H0, H0', H1, H1'.
  assert (Ht : (0 <= 10 * digit naca 2 + digit naca 3 <= 99)%Z) by lia.
  destruct Ht as [Ht Ht']. apply IZR_le in Ht, Ht'.
  refine (conj (decode_valid _ Hv) _).
  repeat split; try lra.
  apply Rneqb_true. lra.
Qed.

Lemma decode_valid_ranges_witness :
  exists m p t : R, decode "2412" = Ok (m, p, t) /\ 0 <= p <= 0.9.
Proof.
  destruct (decode_valid_ranges "2412" eq_refl)
    as (m & p & t & Hd & _ & _ & _ & _ & Hp & _).
  exists m, p, t. split; assumption.
Defined.

Lemma camber_line_m0 (m p x : R) : m = 0 -> camber_line m p x = (0, 0).
Proof.
  intros ->. unfold camber_line.
  destruct (Rltb x p && Rneqb p 0); [| destruct (Rneqb p 1)];
    try reflexivity; apply (f_equal2 (@pair R R)); unfold Rdiv; ring.
Qed.

Lemma first_digit_zero (naca : string) :
  valid_code naca = true -> str_index naca 0 = "0"%string -> digit naca 0 = 0%Z.
Proof.
  intros Hv. destruct (string_length_4 _ (valid_code_length _ Hv))
    as (c0 & c1 & c2 & c3 & ->).
  unfold digit. cbn. intros [= ->]. reflexivity.
Qed.

(** X4.  For a code of four digits whose first digit is 0 (no camber,
    whatever the second digit) the contour is symmetric about the chord:
    the upper and the lower point of every sample have the same abscissa
    [x - 0.5] and the opposite ordinates [y_t] and [- y_t]. *)
Theorem zero_camber_contour_is_symmetric (naca : string) (num_points : Z) :
  valid_code naca = true -> str_index naca 0 = "0"%string ->
  (2 <= num_points)%Z ->
  exists (m p t : R) (coords : list point),
    decode naca = Ok (m, p, t) /\
    generate_naca_airfoil_coordinates naca num_points = Ok coords /\
    forall i : nat, (i < Z.to_nat num_points)%nat ->
      exists x y_t : R,
        x_coord num_points (Z.of_nat i) = Ok x /\
        thickness t x = Ok y_t /\
        nth i coords (0, 0) = (x - 0.5, y_t) /\
        nth (2 * Z.to_nat num_points - 1 - i) coords (0, 0) = (x - 0.5, - y_t).
Proof.
  intros Hv H0 Hn.
  set (m := IZR (digit naca 0) / 100.0).
  set (p := IZR (digit naca 1) / 10.0).
  set (t := IZR (10 * digit naca 2 + digit naca 3) / 100.0).
  assert (Hm : m = 0) by (unfold m; rewrite (first_digit_zero _ Hv H0); lra).
  exists m, p, t, (contour m p t num_points).
  refine (conj (decode_valid _ Hv) (conj (generate_valid _ _ Hv Hn) _)).
  intros i Hi.
  exists (sample num_points (Z.of_nat i)),
    (half_thickness t (sample num_points (Z.of_nat i))).
  rewrite contour_nth_upper, contour_nth_lower by exact Hi.
  refine (conj (x_coord_ok _ _ Hn) (conj (thickness_ok _ _ (sample_nonneg _ _)) _)).
  unfold upper_point, lower_point, recentre, reference, upper_surface, lower_surface.
  cbn [fst snd]. rewrite !(camber_line_m0 _ _ _ Hm). cbn [fst snd].
  rewrite atan_0, sin_0, cos_0. split; apply (f_equal2 (@pair R R)); ring.
Qed.

Lemma zero_camber_contour_is_symmetric_witness :
  exists coords : list point,
    generate_naca_airfoil_coordinates "0012" 20 = Ok coords.
Proof.
  destruct (zero_camber_contour_is_symmetric "0012" 20 eq_refl eq_refl ltac:(lia))
    as (m & p & t & coords & _ & Hg & _).
  now exists coords.
Defined.

(** X5.  The camber line and the reference ordinate never raise: each
    division is guarded by the test of its branch, also for [p = 0] and for
    [p = 1].  For [p = 1] the camber line is the front parabola before
    [x = 1] and zero from there on. *)
Theorem camber_never_raises (m p x : R) :
  (exists y_c dyc_dx : R, camber m p x = Ok (y_c, dyc_dx)) /\
  (exists y : R, y_lift m p = Ok y) /\
  (x < 1 -> camber m 1 x = Ok (m * (2 * x - x * x), 2 * m * (1 - x))) /\
  (1 <= x -> camber m 1 x = Ok (0, 0)).
Proof.
  repeat apply conj.
  - rewrite camber_ok. destruct (camber_line m p x) as [y d]. eauto.
  - rewrite y_lift_ok. eauto.
  - intros H. rewrite camber_ok. unfold camber_line.
    rewrite (Rltb_true _ _ H), (Rneqb_true 1 0) by lra. cbn [andb].
    points_eq; field.
  - intros H. rewrite camber_ok. unfold camber_line.
    rewrite (Rltb_false _ _ H), (Rneqb_false 1 1 eq_refl). reflexivity.
Qed.

(** X6.  For [0 < p < 1] the camber line is [m] minus a square on each side
    of [p]: it takes the value [m] with slope 0 at [x = p] (the two pieces
    meet there), it is 0 at both ends of the chord, and for [m >= 0] it stays
    between 0 and [m] on the chord. *)
Theorem camber_vertex_form (m p x : R) :
  0 < p < 1 ->
  (x < p ->
   camber m p x = Ok (m - m / (p * p) * ((x - p) * (x - p)),
                      2 * m / (p * p) * (p - x))) /\
  (p <= x ->
   camber m p x = Ok (m - m / ((1 - p) * (1 - p)) * ((x - p) * (x - p)),
                      2 * m / ((1 - p) * (1 - p)) * (p - x))) /\
  camber m p p = Ok (m, 0) /\
  camber m p 0 = Ok (0, 2 * m / p) /\
  camber m p 1 = Ok (0, - 2 * m / (1 - p)) /\
  (0 <= m -> 0 <= x <= 1 ->
   exists y_c dyc_dx : R, camber m p x = Ok (y_c, dyc_dx) /\ 0 <= y_c <= m).
Proof.
  intros [Hp0 Hp1].
  assert (Hpp : p * p <> 0) by nra.
  assert (Hqq : (1 - p) * (1 - p) <> 0) by nra.
  assert (Hfront : forall z, z < p ->
            camber m p z = Ok (m - m / (p * p) * ((z - p) * (z - p)),
                               2 * m / (p * p) * (p - z))).
  { intros z Hz. rewrite camber_ok. unfold camber_line.
    rewrite (Rltb_true _ _ Hz), (Rneqb_true p 0) by lra. cbn [andb].
    points_eq. field. lra. }
  assert (Hback : forall z, p <= z ->
            camber m p z = Ok (m - m / ((1 - p) * (1 - p)) * ((z - p) * (z - p)),
                               2 * m / ((1 - p) * (1 - p)) * (p - z))).
  { intros z Hz. rewrite camber_ok. unfold camber_line.
    rewrite (Rltb_false _ _ Hz), (Rneqb_true p 1) by lra. cbn [andb].
    points_eq. field. lra. }
  repeat apply conj.
  - apply Hfront.
  - apply Hback.
  - rewrite Hback by lra. points_eq; field; lra.
  - rewrite Hfront by lra. points_eq; field; lra.
  - rewrite Hback by lra. points_eq; field; lra.
  - intros Hm [Hx0 Hx1]. destruct (Rlt_le_dec x p) as [Hlt | Hge].
    + rewrite (Hfront _ Hlt). do 2 eexists. split; [reflexivity |].
      set (a := m / (p * p)).
      assert (Ha : 0 <= a) by (apply Rle_mult_inv_pos; nra).
      assert (Hap : a * (p * p) = m) by (unfold a; field; lra).
      assert (H1 : 0 <= a * ((x - p) * (x - p))) by (apply Rmult_le_pos; nra).
      assert (H2 : 0 <= a * (x * (2 * p - x))) by (apply Rmult_le_pos; nra).
      replace (a * (x * (2 * p - x)))
        with (a * (p * p) - a * ((x - p) * (x - p))) in H2 by ring.
      lra.
    + rewrite (Hback _ Hge). do 2 eexists. split; [reflexivity |].
      set (a := m / ((1 - p) * (1 - p))).
      assert (Ha : 0 <= a) by (apply Rle_mult_inv_pos; nra).
      assert (Hap : a * ((1 - p) * (1 - p)) = m) by (unfold a; field; lra).
      assert (H1 : 0 <= a * ((x - p) * (x - p))) by (apply Rmult_le_pos; nra).
      assert (H2 : 0 <= a * ((1 - x) * (1 - 2 * p + x))) by (apply Rmult_le_pos; nra).
      replace (a * ((1 - x) * (1 - 2 * p + x)))
        with (a * ((1 - p) * (1 - p)) - a * ((x - p) * (x - p))) in H2 by ring.
      lra.
Qed.

Lemma camber_vertex_form_witness :
  camber 2 (1 / 2) (1 / 2) = Ok (2, 0).
Proof.
  destruct (camber_vertex_form 2 (1 / 2) 0 ltac:(lra)) as (_ & _ & H & _).
  exact H.
Defined.

(** X7.  On the chord the half thickness is defined and not negative when
    [t >= 0]; at the trailing edge it is [0.0105 * t], so the contour of a
    foil with [t > 0] is open there. *)
Theorem thickness_on_chord (t x : R) :
  0 <= t -> 0 <= x <= 1 ->
  exists y_t : R,
    thickness t x = Ok y_t /\ 0 <= y_t /\ (x = 1 -> y_t = 0.0105 * t).
Proof.
  intros Ht [Hx0 Hx1]. exists (half_thickness t x).
  refine (conj (thickness_ok _ _ Hx0) (conj _ _)).
  - unfold half_thickness.
    pose proof (sqrt_pos x) as Hs0.
    pose proof (sqrt_sqrt x Hx0) as Hss.
    assert (Hs1 : sqrt x <= 1) by (rewrite <- sqrt_1; now apply sqrt_le_1_alt).
    assert (Hsx : x <= sqrt x) by nra.
    assert (Hr : 0 <= 0.1015 * (x * x) - 0.1828 * x + 0.1688) by nra.
    assert (Hq : 0 <= (1 - x) * (0.1015 * (x * x) - 0.1828 * x + 0.1688))
      by (apply Rmult_le_pos; lra).
    assert (Hx : 0 <= x * ((1 - x) * (0.1015 * (x * x) - 0.1828 * x + 0.1688) + 0.0021))
      by (apply Rmult_le_pos; lra).
    apply Rmult_le_pos; [lra |].
    cbn [pow]. nra.
  - intros ->. unfold half_thickness. rewrite sqrt_1. lra.
Qed.

Lemma thickness_on_chord_witness :
  exists y_t : R, thickness 0.12 1 = Ok y_t /\ 0 <= y_t.
Proof.
  destruct (thickness_on_chord 0.12 1 ltac:(lra) ltac:(lra)) as (y & H & Hy & _).
  exists y. split; assumption.
Defined.

Lemma cos_atan_pos (d : R) : 0 < cos (atan d).
Proof. pose proof (atan_bound d) as [H1 H2]. apply cos_gt_0; lra. Qed.

Lemma sin_atan (d : R) : sin (atan d) = d * cos (atan d).
Proof.
  pose proof (cos_atan_pos d) as Hc.
  rewrite <- (tan_atan d) at 2. unfold tan. field. lra.
Qed.

(** X8.  The upper and the lower point of an abscissa [x >= 0] lie on the
    two sides of the camber point: their midpoint is the camber point (moved
    by the reference), their distance is twice the half thickness, and the
    segment between them is perpendicular to the camber line.  When the half
    thickness is not negative the upper point is not below the lower one. *)
Theorem surface_points_about_camber (m p t yl x : R) :
  0 <= x ->
  exists (y_c dyc_dx y_t : R) (up lo : point),
    camber m p x = Ok (y_c, dyc_dx) /\
    thickness t x = Ok y_t /\
    surface_points m p t yl x = Ok (up, lo) /\
    fst up + fst lo = 2 * (x - x_lift) /\
    snd up + snd lo = 2 * (y_c - yl) /\
    (fst up - fst lo) ^ 2 + (snd up - snd lo) ^ 2 = (2 * y_t) ^ 2 /\
    (fst up - fst lo) * 1 + (snd up - snd lo) * dyc_dx = 0 /\
    (0 <= y_t -> snd lo <= snd up).
Proof.
  intros Hx.
  destruct (camber_line m p x) as [y_c d] eqn:Ec.
  exists y_c, d, (half_thickness t x).
  assert (Hcam : camber m p x = Ok (y_c, d)) by (now rewrite camber_ok, Ec).
  do 2 eexists.
  refine (conj Hcam (conj (thickness_ok _ _ Hx) (conj _ _))).
  - unfold surface_points. rewrite Hcam. cbn [bind].
    rewrite (thickness_ok _ _ Hx). cbn [bind]. reflexivity.
  - cbn [fst snd].
    pose proof (cos_atan_pos d) as Hc.
    pose proof (sin2_cos2 (atan d)) as Hsc. unfold Rsqr in Hsc.
    pose proof (sin_atan d) as Hs.
    set (yt := half_thickness t x) in *.
    set (s := sin (atan d)) in *. set (c := cos (atan d)) in *.
    repeat apply conj.
    + ring.
    + ring.
    + cbn [pow].
      replace ((x - yt * s - x_lift - (x + yt * s - x_lift)) *
               ((x - yt * s - x_lift - (x + yt * s - x_lift)) * 1) +
               (y_c + yt * c - yl - (y_c - yt * c - yl)) *
               ((y_c + yt * c - yl - (y_c - yt * c - yl)) * 1))
        with (4 * (yt * yt) * (s * s + c * c)) by ring.
      rewrite Hsc. ring.
    + rewrite Hs. ring.
    + intros Hy. assert (0 <= yt * c) by (apply Rmult_le_pos; lra). lra.
Qed.

Lemma surface_points_about_camber_witness :
  exists up lo : point,
    surface_points 0.02 0.4 0.12 0 1 = Ok (up, lo) /\
    fst up + fst lo = 2 * (1 - x_lift).
Proof.
  destruct (surface_points_about_camber 0.02 0.4 0.12 0 1 ltac:(lra))
    as (y_c & d & y_t & up & lo & _ & _ & H & Hm & _).
  exists up, lo. split; assumption.
Defined.

Lemma cos_PI_minus (a : R) : cos (PI - a) = - cos a.
Proof.
  replace (PI - a) with (- a + PI) by ring.
  now rewrite neg_cos, cos_neg.
Qed.

(** X9.  The samples of the cosine spacing lie on the chord and are placed
    symmetrically about its middle: the sample of index [num_points - 1 - i]
    is 1 minus the sample of index [i]. *)
Theorem x_coord_on_chord_and_symmetric (num_points i : Z) :
  (2 <= num_points)%Z ->
  exists x x' : R,
    x_coord num_points i = Ok x /\
    x_coord num_points (num_points - 1 - i) = Ok x' /\
    0 <= x <= 1 /\
    x' = 1 - x.
Proof.
  intros Hn.
  exists (sample num_points i), (sample num_points (num_points - 1 - i)).
  refine (conj (x_coord_ok _ _ Hn) (conj (x_coord_ok _ _ Hn) (conj _ _))).
  - split; [apply sample_nonneg |].
    unfold sample.
    pose proof (COS_bound (PI * IZR i / IZR (num_points - 1))) as [Hc _]. lra.
  - unfold sample.
    assert (Hd : IZR (num_points - 1) <> 0) by (apply not_0_IZR; lia).
    replace (PI * IZR (num_points - 1 - i) / IZR (num_points - 1))
      with (PI - PI * IZR i / IZR (num_points - 1)).
    + rewrite cos_PI_minus. lra.
    + rewrite (minus_IZR (num_points - 1) i). field. exact Hd.
Qed.

Lemma x_coord_on_chord_and_symmetric_witness :
  exists x : R, x_coord 20 3 = Ok x /\ 0 <= x <= 1.
Proof.
  destruct (x_coord_on_chord_and_symmetric 20 3 ltac:(lia)) as (x & x' & H & _ & Hb & _).
  exists x. split; assumption.
Defined.

(** * Further properties of the placement schedule *)

(** X10.  The rotation angle is linear in the fraction: it is [pi / 6] at 0
    and [pi / 2] at 1, it grows strictly, and it stays between these two
    values for a fraction in [[0, 1]]. *)
Theorem get_rotate_angle_linear (fraction fraction' : R) :
  get_rotate_angle fraction = PI / 6 + fraction * (PI / 3) /\
  get_rotate_angle 0 = PI / 6 /\
  get_rotate_angle 1 = PI / 2 /\
  (fraction < fraction' ->
   get_rotate_angle fraction < get_rotate_angle fraction') /\
  (0 <= fraction <= 1 -> PI / 6 <= get_rotate_angle fraction <= PI / 2).
Proof.
  pose proof PI_RGT_0 as Hpi.
  assert (Hl : forall f, get_rotate_angle f = PI / 6 + f * (PI / 3))
    by (intros f; unfold get_rotate_angle; cbv zeta; field).
  repeat apply conj.
  - apply Hl.
  - rewrite Hl. lra.
  - rewrite Hl. lra.
  - intros H. rewrite !Hl. nra.
  - intros H. rewrite Hl. nra.
Qed.

(** X11.  The skew angle is [pi / 2] times the fraction: 0 at 0, growing
    strictly, and between 0 and [pi / 2] (the angle of the tip point) for a
    fraction in [[0, 1]]. *)
Theorem get_skew_angle_linear (fraction fraction' : R) :
  get_skew_angle fraction = PI / 2 * fraction /\
  get_skew_angle 0 = 0 /\
  (fraction < fraction' -> get_skew_angle fraction < get_skew_angle fraction') /\
  (0 <= fraction <= 1 ->
   0 <= get_skew_angle fraction <= get_skew_angle 1).
Proof.
  pose proof PI_RGT_0 as Hpi.
  assert (Hl : forall f, get_skew_angle f = PI / 2 * f)
    by (intros f; unfold get_skew_angle; field).
  repeat apply conj.
  - apply Hl.
  - rewrite Hl. lra.
  - intros H. rewrite !Hl. nra.
  - intros H. rewrite !Hl. nra.
Qed.

Lemma get_scale_value (fraction : R) :
  fraction <= 1 -> get_scale fraction = Ok (scale_value fraction).
Proof.
  intros H. unfold scale_value.
  destruct (Rlt_le_dec fraction 0.6) as [Hlt | Hge].
  - rewrite (Rltb_true _ _ Hlt), (get_scale_below _ Hlt). points_eq.
  - rewrite (Rltb_false _ _ Hge), get_scale_ellipse by lra.
    do 3 f_equal. rewrite scale_argument. cbn [pow]. lra.
Qed.

Lemma get_scale_ellipse_arg (fraction : R) :
  0.6 <= fraction <= 1 ->
  get_scale fraction =
  Ok (1.2 * sqrt (1 - 6.25 * (fraction - 0.6) * (fraction - 0.6))).
Proof. intros H. now rewrite get_scale_ellipse, scale_argument. Qed.

Lemma get_scale_parabola (fraction : R) :
  fraction < 0.6 ->
  get_scale fraction = Ok (1.2 * (1 - (fraction - 0.6) * (fraction - 0.6))).
Proof. intros H. rewrite (get_scale_below _ H). points_eq. Qed.

(** X12.  For every fraction up to 1 the scale is at most 1.2, and it is 1.2
    only at the fraction 0.6.  For a fraction in [[0, 1]] the scale is not
    negative, and it is 0 only at the fraction 1. *)
Theorem get_scale_bounds (fraction : R) :
  fraction <= 1 ->
  exists v : R,
    get_scale fraction = Ok v /\
    v <= 1.2 /\
    (v = 1.2 <-> fraction = 0.6) /\
    (0 <= fraction -> 0 <= v /\ (v = 0 <-> fraction = 1)).
Proof.
  intros H1. destruct (Rlt_le_dec fraction 0.6) as [Hlt | Hge].
  - exists (1.2 * (1 - (fraction - 0.6) * (fraction - 0.6))).
    refine (conj (get_scale_parabola _ Hlt) _).
    repeat split; intros; nra.
  - set (a := 1 - 6.25 * (fraction - 0.6) * (fraction - 0.6)).
    exists (1.2 * sqrt a).
    refine (conj (get_scale_ellipse_arg _ (conj Hge H1)) _).
    assert (Ha0 : 0 <= a) by (unfold a; nra).
    assert (Ha1 : a <= 1) by (unfold a; nra).
    pose proof (sqrt_pos a) as Hs0.
    pose proof (sqrt_sqrt a Ha0) as Hss.
    assert (Hs1 : sqrt a <= 1) by (rewrite <- sqrt_1; now apply sqrt_le_1_alt).
    repeat split.
    + lra.
    + intros E. assert (Es : sqrt a = 1) by lra.
      rewrite Es in Hss. unfold a in Hss. nra.
    + intros E. assert (Ea : a = 1) by (unfold a; rewrite E; lra).
      rewrite Ea, sqrt_1. lra.
    + lra.
    + intros E. assert (Es : sqrt a = 0) by lra.
      rewrite Es in Hss. unfold a in Hss. nra.
    + intros E. assert (Ea : a = 0) by (unfold a; rewrite E; lra).
      rewrite Ea, sqrt_0. lra.
Qed.

Lemma get_scale_bounds_witness :
  exists v : R, get_scale 0.5 = Ok v /\ v <= 1.2.
Proof.
  destruct (get_scale_bounds 0.5 ltac:(lra)) as (v & H & Hv & _).
  exists v. split; assumption.
Defined.

(** X13.  The scale grows strictly with the fraction up to 0.6 and falls
    strictly from 0.6 to 1. *)
Theorem get_scale_monotone (fraction fraction' v v' : R) :
  fraction < fraction' ->
  get_scale fraction = Ok v -> get_scale fraction' = Ok v' ->
  (fraction' <= 0.6 -> v < v') /\ (0.6 <= fraction -> v' < v).
Proof.
  intros Hlt Hv Hv'. split.
  - intros H. rewrite get_scale_parabola in Hv by lra. injection Hv as <-.
    destruct (Rlt_le_dec fraction' 0.6) as [H' | H'].
    + rewrite (get_scale_parabola _ H') in Hv'. injection Hv' as <-. nra.
    + assert (E : fraction' = 0.6) by lra. subst fraction'.
      rewrite get_scale_peak in Hv'. injection Hv' as <-. nra.
  - intros H.
    assert (H1 : fraction' <= 1).
    { destruct (Rlt_le_dec 1 fraction') as [Hgt | Hle]; [| exact Hle].
      rewrite (get_scale_domain_error _ Hgt) in Hv'. discriminate. }
    rewrite get_scale_ellipse_arg in Hv, Hv' by lra.
    injection Hv as <-. injection Hv' as <-.
    apply Rmult_lt_compat_l; [lra |].
    apply sqrt_lt_1_alt. nra.
Qed.

Lemma get_scale_monotone_witness :
  exists v v' : R,
    get_scale 0.6 = Ok v /\ get_scale 1 = Ok v' /\ v' < v.
Proof.
  exists 1.2, 0. refine (conj get_scale_peak (conj get_scale_tip _)).
  apply (get_scale_monotone 0.6 1 1.2 0 ltac:(lra) get_scale_peak get_scale_tip).
  lra.
Defined.

Lemma create_sketch_points_closed (coords : list point) (scale : R) (pt d : point) :
  hd_error coords = Some pt -> last coords d = pt ->
  hd_error (create_sketch_points coords scale) =
    Some (Point3D_create (fst pt * scale) (snd pt * scale) 0) /\
  last (create_sketch_points coords scale)
       (Point3D_create (fst d * scale) (snd d * scale) 0) =
    Point3D_create (fst pt * scale) (snd pt * scale) 0.
Proof.
  intros Hh Hl. unfold create_sketch_points. split.
  - destruct coords as [| c coords]; [discriminate |].
    cbn in Hh |- *. now injection Hh as ->.
  - rewrite <- Hl. clear. induction coords as [| c [| c' coords] IH]; try reflexivity.
    exact IH.
Qed.

Lemma contour_closed (m p t : R) (n : Z) (d : point) :
  (1 <= n)%Z ->
  hd_error (contour m p t n) = Some (upper_point m p t 0) /\
  last (contour m p t n) d = upper_point m p t 0.
Proof.
  intros Hn. split; [now apply contour_first |].
  rewrite contour_last by exact Hn.
  destruct (surfaces_meet_at_0 m p t) as [Hu Hl].
  unfold upper_point, lower_point. now rewrite Hu, Hl.
Qed.

(** X14.  For every code of four digits, [num_points >= 2] and every scale,
    [create_sketch] hands the spline [2 * num_points] points, all in the
    plane [z = 0], each the contour point multiplied by the scale, and the
    first and the last of them are the same point: the spline is closed. *)
Theorem create_sketch_points_of_contour (naca : string) (num_points : Z) (scale : R) :
  valid_code naca = true -> (2 <= num_points)%Z ->
  exists (coords : list point) (first : Point3D),
    generate_naca_airfoil_coordinates naca num_points = Ok coords /\
    List.length (create_sketch_points coords scale) = (2 * Z.to_nat num_points)%nat /\
    (forall k : nat, (k < 2 * Z.to_nat num_points)%nat ->
       nth k (create_sketch_points coords scale) (Point3D_create 0 0 0) =
       Point3D_create (fst (nth k coords (0, 0)) * scale)
                      (snd (nth k coords (0, 0)) * scale) 0) /\
    hd_error (create_sketch_points coords scale) = Some first /\
    last (create_sketch_points coords scale) (Point3D_create 0 0 0) = first.
Proof.
  intros Hv Hn.
  set (m := IZR (digit naca 0) / 100.0).
  set (p := IZR (digit naca 1) / 10.0).
  set (t := IZR (10 * digit naca 2 + digit naca 3) / 100.0).
  destruct (contour_closed m p t num_points (0, 0) ltac:(lia)) as [Hh Hl].
  destruct (create_sketch_points_closed _ scale _ _ Hh Hl) as [Hh' Hl'].
  exists (contour m p t num_points). eexists.
  refine (conj (generate_valid _ _ Hv Hn) (conj _ (conj _ (conj Hh' _)))).
  - unfold create_sketch_points. now rewrite length_map, contour_length.
  - intros k Hk. unfold create_sketch_points.
    set (f := fun xy : point => Point3D_create (fst xy * scale) (snd xy * scale) 0).
    rewrite (nth_indep _ _ (f (0, 0))) by (now rewrite length_map, contour_length).
    now rewrite (map_nth f).
  - rewrite <- Hl'. cbn [fst snd]. now rewrite !Rmult_0_l.
Qed.

Lemma create_sketch_points_of_contour_witness :
  exists coords : list point,
    generate_naca_airfoil_coordinates "2412" 20 = Ok coords /\
    List.length (create_sketch_points coords 1.2) = 40%nat.
Proof.
  destruct (create_sketch_points_of_contour "2412" 20 1.2 eq_refl ltac:(lia))
    as (coords & first & Hg & Hlen & _).
  exists coords. split; [exact Hg | exact Hlen].
Defined.

Lemma run_fraction (i : Z) :
  py_div (IZR i) (IZR run_sketch_num) = Ok (IZR i / IZR run_sketch_num).
Proof. apply py_div_ok. unfold run_sketch_num. apply not_0_IZR. lia. Qed.

Lemma run_loop_ok (coords : list point) (indices : list Z) :
  Forall (fun i => (i <= run_sketch_num)%Z) indices ->
  forall loft_profiles : list section_call,
    run_loop coords indices loft_profiles =
    Ok (loft_profiles ++
        map (run_section coords) (filter (fun i => negb (i <? 6)%Z) indices)).
Proof.
  induction 1 as [| i indices Hi _ IH]; intros acc; cbn [run_loop filter].
  - now rewrite app_nil_r.
  - destruct (i <? 6)%Z; cbn [negb]; [apply IH |].
    rewrite run_fraction. cbn [bind].
    rewrite get_scale_value.
    + cbn [bind map]. rewrite IH, <- app_assoc. reflexivity.
    + unfold run_sketch_num in *.
      apply (Rmult_le_reg_r (IZR 50)); [lra |].
      unfold Rdiv. rewrite Rmult_assoc, Rinv_l, Rmult_1_r, Rmult_1_l by lra.
      now apply IZR_le.
Qed.

Lemma run_stations :
  filter (fun i => negb (i <? 6)%Z) (range run_sketch_num) =
  map Z.of_nat (seq 6 44).
Proof. reflexivity. Qed.

Lemma end_point_value (r : R) : end_point r = Point3D_create 0 r (- r).
Proof.
  unfold end_point, get_skew_angle. cbv zeta.
  replace (PI * 1 / 2 * 1) with (PI / 2) by lra.
  rewrite cos_PI2, sin_PI2. f_equal; ring.
Qed.

Lemma scale_value_pos (fraction : R) :
  0 <= fraction < 1 -> 0 < scale_value fraction <= 1.2.
Proof.
  intros [H0 H1]. unfold scale_value.
  destruct (Rlt_le_dec fraction 0.6) as [Hlt | Hge].
  - rewrite (Rltb_true _ _ Hlt). cbn [pow]. nra.
  - rewrite (Rltb_false _ _ Hge).
    set (a := 1 - ((fraction - 0.6) / 0.4) ^ 2).
    assert (Ha : 0 < a <= 1).
    { unfold a. cbn [pow].
      assert (0 <= (fraction - 0.6) / 0.4 < 1) by (split; lra). nra. }
    pose proof (sqrt_lt_R0 a ltac:(lra)) as Hs0.
    assert (Hs1 : sqrt a <= 1) by (rewrite <- sqrt_1; apply sqrt_le_1_alt; lra).
    lra.
Qed.

(** X15.  [run] raises nothing before it calls the host: the contour of the
    code 2412 with 20 samples per surface has 40 points, every station from
    6 to 49 gets a scale in [(0, 1.2]] (no domain error, no section of size
    zero), so there are 44 sections, each a closed spline of 40 points, and
    the tip point is [(0, 2, -2)]. *)
Theorem run_succeeds :
  exists (airfoil_coords : list point) (loft_profiles : list section_call),
    generate_naca_airfoil_coordinates "2412" 20 = Ok airfoil_coords /\
    run = Ok (loft_profiles, Point3D_create 0 2 (-2)) /\
    List.length loft_profiles = 44%nat /\
    forall k : nat, (k < 44)%nat ->
      let i := Z.of_nat (k + 6) in
      let fraction := IZR i / IZR 50 in
      exists scale : R,
        get_scale fraction = Ok scale /\
        0 < scale <= 1.2 /\
        nth k loft_profiles (Section_call 0 [] 0 0 0) =
          Section_call i (create_sketch_points airfoil_coords scale)
            (get_rotate_angle fraction) (get_skew_angle fraction) 2 /\
        List.length (create_sketch_points airfoil_coords scale) = 40%nat /\
        hd_error (create_sketch_points airfoil_coords scale) =
          Some (last (create_sketch_points airfoil_coords scale)
                     (Point3D_create 0 0 0)).
Proof.
  set (m := IZR (digit "2412" 0) / 100.0).
  set (p := IZR (digit "2412" 1) / 10.0).
  set (t := IZR (10 * digit "2412" 2 + digit "2412" 3) / 100.0).
  assert (Hg : generate_naca_airfoil_coordinates "2412" 20 = Ok (contour m p t 20))
    by (apply generate_valid; [reflexivity | lia]).
  assert (Hrange : Forall (fun i => (i <= run_sketch_num)%Z) (range run_sketch_num)).
  { apply Forall_forall. intros i Hi. apply range_spec in Hi. lia. }
  exists (contour m p t 20),
    (map (run_section (contour m p t 20)) (map Z.of_nat (seq 6 44))).
  refine (conj Hg (conj _ (conj _ _))).
  - unfold run. rewrite Hg. cbn [bind].
    rewrite (run_loop_ok _ _ Hrange), run_stations. cbn [bind app].
    rewrite end_point_value. unfold run_skew_r. reflexivity.
  - now rewrite !length_map, length_seq.
  - intros k Hk. cbv zeta.
    remember (Z.of_nat (k + 6)) as i eqn:Ei.
    set (fraction := IZR i / IZR 50).
    assert (Hi : (6 <= i <= 49)%Z) by lia.
    assert (Hf : 0 <= fraction < 1).
    { destruct Hi as [Hi1 Hi2]. apply IZR_le in Hi1, Hi2. unfold fraction.
      split; [apply Rle_mult_inv_pos; lra |].
      apply (Rmult_lt_reg_r (IZR 50)); [lra |].
      unfold Rdiv. rewrite Rmult_assoc, Rinv_l, Rmult_1_r, Rmult_1_l by lra. lra. }
    exists (scale_value fraction).
    assert (Hf1 : fraction <= 1) by lra.
    refine (conj (get_scale_value _ Hf1) (conj (scale_value_pos _ Hf) (conj _ _))).
    + rewrite map_map.
      rewrite (nth_indep _ _ (run_section (contour m p t 20) (Z.of_nat 0)))
        by (now rewrite length_map, length_seq).
      rewrite (map_nth (fun j => run_section (contour m p t 20) (Z.of_nat j))).
      rewrite seq_nth by exact Hk.
      replace (6 + k)%nat with (k + 6)%nat by lia. rewrite <- Ei. reflexivity.
    + destruct (contour_closed m p t 20 (0, 0) ltac:(lia)) as [Hh Hl].
      destruct (create_sketch_points_closed _ (scale_value fraction) _ _ Hh Hl)
        as [Hh' Hl'].
      split.
      * unfold create_sketch_points. now rewrite length_map, contour_length.
      * rewrite Hh'. f_equal. rewrite <- Hl'. cbn [fst snd].
        now rewrite !Rmult_0_l.
Qed.

(** X16.  For a code of four digits and [num_points >= 2]: when [t > 0] the
    two middle points of the contour (the upper and the lower point of the
    trailing edge) differ, so the foil is open at the trailing edge; when
    [t = 0] the upper and the lower point of every sample coincide. *)
Theorem trailing_edge_open (naca : string) (num_points : Z) :
  valid_code naca = true -> (2 <= num_points)%Z ->
  exists (m p t : R) (coords : list point),
    decode naca = Ok (m, p, t) /\
    generate_naca_airfoil_coordinates naca num_points = Ok coords /\
    (0 < t ->
     snd (nth (Z.to_nat num_points) coords (0, 0)) <
     snd (nth (Z.to_nat num_points - 1) coords (0, 0))) /\
    (t = 0 ->
     forall i : nat, (i < Z.to_nat num_points)%nat ->
       nth i coords (0, 0) =
       nth (2 * Z.to_nat num_points - 1 - i) coords (0, 0)).
Proof.
  intros Hv Hn.
  set (m := IZR (digit naca 0) / 100.0).
  set (p := IZR (digit naca 1) / 10.0).
  set (t := IZR (10 * digit naca 2 + digit naca 3) / 100.0).
  exists m, p, t, (contour m p t num_points).
  refine (conj (decode_valid _ Hv) (conj (generate_valid _ _ Hv Hn) (conj _ _))).
  - intros Ht.
    replace (Z.to_nat num_points)
      with (2 * Z.to_nat num_points - 1 - (Z.to_nat num_points - 1))%nat at 1 by lia.
    rewrite contour_nth_lower, contour_nth_upper by lia.
    replace (Z.of_nat (Z.to_nat num_points - 1)) with (num_points - 1)%Z by lia.
    rewrite (sample_last _ Hn).
    unfold upper_point, lower_point, recentre, upper_surface, lower_surface.
    cbn [fst snd].
    assert (Hy : half_thickness t 1 = 0.0105 * t)
      by (unfold half_thickness; rewrite sqrt_1; lra).
    pose proof (cos_atan_pos (snd (camber_line m p 1))) as Hc.
    rewrite Hy. nra.
  - intros Ht i Hi. rewrite contour_nth_upper, contour_nth_lower by exact Hi.
    unfold upper_point, lower_point, upper_surface, lower_surface.
    assert (Hy : forall x, half_thickness t x = 0)
      by (intros x; unfold half_thickness; rewrite Ht; ring).
    cbv zeta. rewrite !Hy. do 2 f_equal; ring.
Qed.

Lemma trailing_edge_open_witness :
  exists coords : list point,
    generate_naca_airfoil_coordinates "2412" 20 = Ok coords /\
    snd (nth 20 coords (0, 0)) < snd (nth 19 coords (0, 0)).
Proof.
  destruct (trailing_edge_open "2412" 20 eq_refl ltac:(lia))
    as (m & p & t & coords & Hd & Hg & Hopen & _).
  exists coords. split; [exact Hg |]. apply Hopen.
  rewrite (decode_valid "2412" eq_refl) in Hd. injection Hd as _ _ <-.
  change (digit "2412" 2) with 1%Z. change (digit "2412" 3) with 2%Z. lra.
Defined.

(** X17.  Below 0.6 there is no lower bound on the fraction: [get_scale]
    returns the value of the parabola, which is below 0.768 for a negative
    fraction and negative exactly when the fraction is below -0.4. *)
Theorem get_scale_negative_fraction (fraction : R) :
  fraction < 0 ->
  exists v : R,
    get_scale fraction = Ok v /\ v < 0.768 /\ (v < 0 <-> fraction < -0.4).
Proof.
  intros H. exists (1.2 * (1 - (fraction - 0.6) * (fraction - 0.6))).
  assert (H06 : fraction < 0.6) by lra.
  refine (conj (get_scale_parabola _ H06) _).
  repeat split; intros; nra.
Qed.

Lemma get_scale_negative_fraction_witness :
  exists v : R, get_scale (-1) = Ok v /\ v < 0.
Proof.
  destruct (get_scale_negative_fraction (-1) ltac:(lra)) as (v & H & _ & Hv).
  exists v. split; [exact H | apply Hv; lra].
Defined.

(** X18.  Every code that the decoding accepts, of four digits or not, gives
    [0 <= m <= 0.09], [0 <= p <= 0.9] and [-0.09 <= t <= 0.99]; the thickness
    is negative only when the third character is a minus sign. *)
Theorem decode_accepted_ranges (naca : string) :
  accepted_code naca = true ->
  exists m p t : R,
    decode naca = Ok (m, p, t) /\
    0 <= m <= 0.09 /\ 0 <= p <= 0.9 /\ -0.09 <= t <= 0.99 /\
    (t < 0 -> Ascii.eqb (nth 2 (list_ascii_of_string naca) " "%char) "-" = true).
Proof.
  intros H. destruct (string_length_4 _ (accepted_code_length _ H))
    as (c0 & c1 & c2 & c3 & ->).
  rewrite decode_4. revert H.
  unfold accepted_code, int_of_1, int_of_2. cbn [list_ascii_of_string nth].
  destruct (isdigit c0) eqn:D0, (isdigit c1) eqn:D1, (isdigit c2) eqn:D2,
    (isdigit c3) eqn:D3, (int_isspace c2), (Ascii.eqb c2 "+"),
    (Ascii.eqb c2 "-"), (int_isspace c3);
    cbn [andb orb bind]; try discriminate; intros _;
    repeat match goal with
           | D : isdigit _ = _ |- _ =>
               first [ apply isdigit_value in D; destruct D as [? ?] | clear D ]
           end;
    repeat match goal with
           | D : (_ <= _)%Z |- _ => apply IZR_le in D
           end;
    do 3 eexists; (split; [reflexivity |]);
    rewrite ?opp_IZR, ?plus_IZR, ?mult_IZR;
    repeat split; intros; try reflexivity; try lra; exfalso; lra.
Qed.

Lemma decode_accepted_ranges_witness :
  exists m p t : R, decode "24-1" = Ok (m, p, t) /\ -0.09 <= t <= 0.99.
Proof.
  destruct (decode_accepted_ranges "24-1" eq_refl) as (m & p & t & Hd & _ & _ & Ht & _).
  exists m, p, t. split; assumption.
Defined.
